(** * gpt4all-ts: the [GPT4All] controller of [src/gpt4all.ts]

    A shallow embedding of the class [GPT4All]: its constructor, the
    provisioning of the two artifacts ([init], [downloadExecutable],
    [downloadModel], [downloadFile]), the life cycle of the child process
    ([open], [close]) and the framing of a reply ([prompt] with its two
    stream listeners and its inactivity timer).

    Conventions of the embedding.
    - A JavaScript string is the list of its UTF-16 code units.
    - The outside world (file system, child processes, network, console) is a
      record [World]; an operation is a function [World -> A * World] that
      appends the effects it performs to [trace].  What the outside world
      answers (host platform, failure of a request, of [chmod], ...) is read
      from the oracle [env].
    - A synchronous call ends in a [Completion] (normal or thrown); an
      [async] function ends in a [Promise].  [downloadExecutable] and
      [downloadModel] are given twice: run alone to their end, and as
      downloads in progress, suspended at their [await]s, which is how
      [init] runs the two of them side by side; the order in which the host
      completes their operations is part of [env].
    - The type [GPTArguments] lives in [./types]; the values of its fields
      are taken as a type [Value] with their [toString]. *)

From Stdlib Require Import List Arith NArith Bool String Ascii Lia.
Import ListNotations.

Local Open Scope N_scope.
Local Open Scope list_scope.

(* ------------------------------------------------------------------ *)
(** ** Strings *)

Definition jsstring := list N.

(** A literal, code unit by code unit. *)
Definition str (s : string) : jsstring :=
  map N_of_ascii (list_ascii_of_string s).

Definition LF : N := 10.
Definition ESC : N := 27.
Definition GT : N := 62.

Fixpoint jsstring_eqb (a b : jsstring) : bool :=
  match a, b with
  | [], [] => true
  | x :: a', y :: b' => (x =? y) && jsstring_eqb a' b'
  | _, _ => false
  end.

(** [Array.prototype.includes] on an array of strings. *)
Definition includes (xs : list jsstring) (x : jsstring) : bool :=
  existsb (jsstring_eqb x) xs.

(** [Array.prototype.join]. *)
Fixpoint join (sep : jsstring) (xs : list jsstring) : jsstring :=
  match xs with
  | [] => []
  | [x] => x
  | x :: rest => x ++ sep ++ join sep rest
  end.

(** [String.prototype.includes] for a one-character needle. *)
Definition includesChar (c : N) (s : jsstring) : bool :=
  existsb (N.eqb c) s.

(** [s.endsWith('>')]. *)
Definition endsWithGT (s : jsstring) : bool :=
  match rev s with
  | c :: _ => c =? GT
  | [] => false
  end.

(** [s.slice(0, -1)]. *)
Definition sliceInit (s : jsstring) : jsstring := removelast s.

(** ECMAScript [LineTerminator]: LF, CR, LS, PS. *)
Definition isLineTerminator (c : N) : bool :=
  (c =? 10) || (c =? 13) || (c =? 8232) || (c =? 8233).

(** ECMAScript [WhiteSpace] and [LineTerminator], what [trim] and the class
    [\s] remove or match. *)
Definition isWhiteSpace (c : N) : bool :=
  isLineTerminator c
  || (c =? 9) || (c =? 11) || (c =? 12) || (c =? 32) || (c =? 160)
  || (c =? 5760) || ((8192 <=? c) && (c <=? 8202))
  || (c =? 8239) || (c =? 8287) || (c =? 12288) || (c =? 65279).

Fixpoint trimStart (s : jsstring) : jsstring :=
  match s with
  | c :: s' => if isWhiteSpace c then trimStart s' else s
  | [] => []
  end.

(** [String.prototype.trim]. *)
Definition trim (s : jsstring) : jsstring :=
  rev (trimStart (rev (trimStart s))).

(* ------------------------------------------------------------------ *)
(** ** The end-of-turn pattern [/^\u{001B}.*\n>\s?/mu]

    One function per piece of the pattern, each telling whether the rest of
    the pattern matches at the head of its argument. *)

(** [\s?] : one blank or none; nothing follows it in the pattern. *)
Definition re_optSpace (s : jsstring) : bool :=
  match s with
  | c :: _ => isWhiteSpace c || true
  | [] => true
  end.

(** [\n>\s?] *)
Definition re_tail (s : jsstring) : bool :=
  match s with
  | c1 :: c2 :: s' => (c1 =? LF) && (c2 =? GT) && re_optSpace s'
  | _ => false
  end.

(** [.*\n>\s?] : the star takes any number of characters that are not line
    terminators (no [s] flag). *)
Fixpoint re_star (s : jsstring) : bool :=
  re_tail s
  || match s with
     | c :: s' => negb (isLineTerminator c) && re_star s'
     | [] => false
     end.

(** [\u{001B}.*\n>\s?] *)
Definition re_body (s : jsstring) : bool :=
  match s with
  | c :: s' => (c =? ESC) && re_star s'
  | [] => false
  end.

(** [RegExp.prototype.test]: a match is looked for from every index; with
    the [m] flag [^] holds at index 0 and after each line terminator. *)
Fixpoint re_search (lineStart : bool) (s : jsstring) : bool :=
  (lineStart && re_body s)
  || match s with
     | c :: s' => re_search (isLineTerminator c) s'
     | [] => false
     end.

Definition endPattern (text : jsstring) : bool := re_search true text.

(* ------------------------------------------------------------------ *)
(** ** Errors, completions, promises *)

(** Every error of the class is a plain [Error] carrying a message. *)
Record Error := mkError { message : jsstring }.

Inductive Completion (A : Type) : Type :=
| Normal (a : A)
| Throw (e : Error).
Arguments Normal {A} a.
Arguments Throw {A} e.

Inductive Promise (A : Type) : Type :=
| Pending
| Fulfilled (a : A)
| Rejected (e : Error).
Arguments Pending {A}.
Arguments Fulfilled {A} a.
Arguments Rejected {A} e.

(** [resolve] and [reject] of a promise: a settled promise stays as it is. *)
Definition resolve {A} (a : A) (p : Promise A) : Promise A :=
  match p with Pending => Fulfilled a | _ => p end.

Definition reject {A} (e : Error) (p : Promise A) : Promise A :=
  match p with Pending => Rejected e | _ => p end.

(** [Promise.all]: fulfilled with all the values once every promise is;
    rejected as soon as one is (here: the first rejected one of the array). *)
Fixpoint Promise_all {A} (ps : list (Promise A)) : Promise (list A) :=
  match ps with
  | [] => Fulfilled []
  | p :: rest =>
      match p, Promise_all rest with
      | Rejected e, _ => Rejected e
      | _, Rejected e => Rejected e
      | Fulfilled a, Fulfilled l => Fulfilled (a :: l)
      | _, _ => Pending
      end
  end.

(* ------------------------------------------------------------------ *)
(** ** The outside world *)

Definition Pid := nat.

Inductive Effect : Type :=
| Spawn (pid : Pid) (file : jsstring) (args : list jsstring)
| Kill (pid : Pid)
| StdinWrite (pid : Pid) (text : jsstring)
| Exec (cmd : jsstring)
| HttpGet (url : jsstring)
| Mkdir (dir : jsstring)
| CreateWriteStream (dest : jsstring)
| Chmod (path : jsstring) (mode : N)
| ConsoleLog (msg : jsstring).

(** The two artifacts [init] may push a download for. *)
Inductive Artifact : Type := Executable | ModelWeights.

(** What the host answers. *)
Record Env := mkEnv {
  homedir : jsstring;                     (* os.homedir() *)
  platform : jsstring;                    (* os.platform() *)
  uname_m : Error + jsstring;             (* exec('uname -m'): rejection or stdout *)
  axios_get : jsstring -> option Error;   (* the request fails *)
  writer_error : jsstring -> option Error;(* 'error' of the write stream, else 'finish' *)
  mkdir_error : option Error;             (* err of mkdir's callback *)
  chmod_error : jsstring -> option Error; (* err of chmod's callback *)
  completions : list Artifact             (* whose pending operation completes
                                             next, while two downloads run *)
}.

Record World := mkWorld {
  env : Env;
  files : list jsstring;          (* the paths that exist *)
  modes : list (jsstring * N);    (* permission bits set by chmod, latest first *)
  trace : list Effect;            (* the effects performed, oldest first *)
  uncaught : list Error;          (* exceptions thrown out of a callback *)
  next_pid : Pid
}.

Definition M (A : Type) : Type := World -> A * World.

Definition ret {A} (a : A) : M A := fun w => (a, w).

Definition bind {A B} (m : M A) (k : A -> M B) : M B :=
  fun w => let (a, w') := m w in k a w'.

Notation "x <- m ;; k" := (bind m (fun x => k))
  (at level 61, m at next level, right associativity).
Notation "m ;;; k" := (bind m (fun _ => k))
  (at level 61, right associativity).

(** [await p] inside an [async] function: the body goes on when [p] is
    fulfilled; the function's promise is rejected when [p] is, and stays
    pending as long as [p] does. *)
Definition await {A B} (m : M (Promise A)) (k : A -> M (Promise B))
  : M (Promise B) :=
  r <- m ;;
  match r with
  | Fulfilled a => k a
  | Rejected e => ret (Rejected e)
  | Pending => ret Pending
  end.

Definition ask : M Env := fun w => (env w, w).

Definition emit (e : Effect) : M unit :=
  fun w => (tt, mkWorld (env w) (files w) (modes w) (trace w ++ [e])
                        (uncaught w) (next_pid w)).

(** An exception thrown inside a callback of [node:fs]: it unwinds to the
    event loop, no promise sees it. *)
Definition throwInCallback (e : Error) : M unit :=
  fun w => (tt, mkWorld (env w) (files w) (modes w) (trace w)
                        (uncaught w ++ [e]) (next_pid w)).

Definition existsSync (path : jsstring) : M bool :=
  fun w => (includes (files w) path, w).

(** [createWriteStream(destination)]: the file is there from now on. *)
Definition createWriteStream (dest : jsstring) : M unit :=
  emit (CreateWriteStream dest) ;;;
  fun w => (tt, mkWorld (env w)
                        (if includes (files w) dest then files w
                         else dest :: files w)
                        (modes w) (trace w) (uncaught w) (next_pid w)).

(** [mkdir(dir, { recursive: true }, cb)]; [cb] is [downloadFile]'s, which
    throws the error it is given. *)
Definition mkdir (dir : jsstring) : M unit :=
  emit (Mkdir dir) ;;;
  e <- ask ;;
  match mkdir_error e with
  | Some err => throwInCallback err
  | None => ret tt
  end.

(** The outcome of [chmod(path, mode, cb)], when its callback runs; [cb] is
    [downloadExecutable]'s, which throws the error it is given. *)
Definition chmodCallback (path : jsstring) (mode : N) : M unit :=
  e <- ask ;;
  match chmod_error e path with
  | Some err => throwInCallback err
  | None =>
      fun w => (tt, mkWorld (env w) (files w) ((path, mode) :: modes w)
                            (trace w) (uncaught w) (next_pid w))
  end.

(** [spawn(file, args, { stdio: ['pipe', 'pipe', 'ignore'] })]. *)
Definition spawn (file : jsstring) (args : list jsstring) : M Pid :=
  fun w =>
    let pid := next_pid w in
    (pid, mkWorld (env w) (files w) (modes w)
                  (trace w ++ [Spawn pid file args]) (uncaught w) (S pid)).

(* ------------------------------------------------------------------ *)
(** ** The reply of one [prompt] call

    The closure of the promise's executor: the accumulator [response], the
    timer [timeoutId], the two listeners on [bot.stdout] (attached and
    detached together) and the promise itself.  [now] is the clock of the
    event loop, in milliseconds. *)

(** A [NodeJS.Timeout]: due at [deadline] unless cleared or already run. *)
Record Timeout := mkTimeout { deadline : N; active : bool }.

Record PromptState := mkPrompt {
  stdout_of : Pid;
  now : N;
  response : jsstring;
  timeoutId : option Timeout;
  listening : bool;
  promise : Promise jsstring
}.

(** [if (timeoutId) clearTimeout(timeoutId)] *)
Definition clearTimeout (st : PromptState) : PromptState :=
  mkPrompt (stdout_of st) (now st) (response st)
           (option_map (fun t => mkTimeout (deadline t) false) (timeoutId st))
           (listening st) (promise st).

(** [timeoutId = setTimeout(..., delay)] *)
Definition setTimeout (delay : N) (st : PromptState) : PromptState :=
  mkPrompt (stdout_of st) (now st) (response st)
           (Some (mkTimeout (now st + delay) true))
           (listening st) (promise st).

(** [if (finalResponse.endsWith('>')) finalResponse = finalResponse.slice(0, -1)] *)
Definition dropPromptMarker (finalResponse : jsstring) : jsstring :=
  if endsWithGT finalResponse then sliceInit finalResponse
  else finalResponse.

Definition terminateAndResolve (finalResponse : jsstring) (st : PromptState)
  : PromptState :=
  (* both listeners are removed, then the marker, then resolve *)
  let finalResponse := dropPromptMarker finalResponse in
  mkPrompt (stdout_of st) (now st) (response st) (timeoutId st)
           false (resolve finalResponse (promise st)).

Definition onStdoutData (text : jsstring) (st : PromptState) : PromptState :=
  let st := clearTimeout st in
  let st :=
    if endPattern text then terminateAndResolve (response st) st
    else setTimeout 4000 st in
  (* response += text *)
  mkPrompt (stdout_of st) (now st) (response st ++ text) (timeoutId st)
           (listening st) (promise st).

Definition onStdoutError (err : Error) (st : PromptState) : PromptState :=
  mkPrompt (stdout_of st) (now st) (response st) (timeoutId st)
           false (reject err (promise st)).

(** The callback handed to [setTimeout]. *)
Definition onTimeout (st : PromptState) : PromptState :=
  terminateAndResolve (response st) st.

(** What the event loop delivers to the call: a chunk of the child's
    standard output, an error of that stream, or the passing of time. *)
Inductive Event : Type :=
| Data (text : jsstring)
| StreamError (err : Error)
| Elapse (ms : N).

(** Time moves on by [ms]; a timer that is still active and has come due
    runs, once. *)
Definition elapse (ms : N) (st : PromptState) : PromptState :=
  let st := mkPrompt (stdout_of st) (now st + ms) (response st)
                     (timeoutId st) (listening st) (promise st) in
  match timeoutId st with
  | Some t =>
      if active t && (deadline t <=? now st)
      then onTimeout (clearTimeout st)
      else st
  | None => st
  end.

(** A detached listener is not called. *)
Definition step (st : PromptState) (ev : Event) : PromptState :=
  match ev with
  | Data text => if listening st then onStdoutData text st else st
  | StreamError err => if listening st then onStdoutError err st else st
  | Elapse ms => elapse ms st
  end.

Definition run (evs : list Event) (st : PromptState) : PromptState :=
  fold_left step evs st.

(** The state in which [new Promise(...)] leaves the call: empty
    accumulator, no timer, both listeners attached. *)
Definition promptStart (pid : Pid) : PromptState :=
  mkPrompt pid 0 [] None true Pending.

(* ------------------------------------------------------------------ *)
(** ** The class *)

Definition availableModels : list jsstring :=
  [ str "gpt4all-lora-quantized";
    str "gpt4all-lora-unfiltered-quantized" ].

(** The errors the class throws itself, under the names the specification
    gives them. *)
Definition UnsupportedModel (model : jsstring) : Error :=
  mkError (str "Model " ++ model
           ++ str " is not supported. Current models supported are:"
           ++ [LF] ++ join (str "," ++ [LF]) availableModels).

Definition UnsupportedPlatform (platform : jsstring) : Error :=
  mkError (str "Your platform is not supported: " ++ platform
           ++ str ". Current binaries supported are for OSX (ARM and Intel), Linux and Windows.").

Definition NotInitialized : Error :=
  mkError (str "Bot is not initialized.").

Definition upstream_OSX_m1 : jsstring :=
  str "https://github.com/nomic-ai/gpt4all/blob/main/chat/gpt4all-lora-quantized-OSX-m1?raw=true".
Definition upstream_OSX_intel : jsstring :=
  str "https://github.com/nomic-ai/gpt4all/blob/main/chat/gpt4all-lora-quantized-OSX-intel?raw=true".
Definition upstream_linux : jsstring :=
  str "https://github.com/nomic-ai/gpt4all/blob/main/chat/gpt4all-lora-quantized-linux-x86?raw=true".
Definition upstream_win64 : jsstring :=
  str "https://github.com/nomic-ai/gpt4all/blob/main/chat/gpt4all-lora-quantized-win64.exe?raw=true".

Definition downloadedTo (path : jsstring) : jsstring :=
  str "File downloaded successfully to " ++ path.

(** The listener [open] leaves on [bot.stdout]:
    [(data) => data.toString().includes('>') && resolve(true)]. *)
Definition readyListener (text : jsstring) (p : Promise unit) : Promise unit :=
  if includesChar GT text then resolve tt p else p.

(* ------------------------------------------------------------------ *)
(** ** Downloads in progress

    [init] calls [downloadExecutable] and [downloadModel] one after the
    other without awaiting either: each runs up to its first [await] and
    hands back a promise; from then on the event loop resumes whichever
    download has had its pending operation completed.  A download in
    progress is the [await] it is suspended at. *)

(** Where a call of [downloadFile] stands. *)
Inductive FileStage : Type :=
| AwaitResponse (url destination : jsstring)  (* await axios.get(url, ...) *)
| AwaitFinish (destination : jsstring)        (* 'finish' or 'error' of the writer *)
| FileSettled (p : Promise unit).

(** Where a call of [downloadExecutable] or [downloadModel] stands. *)
Inductive Stage : Type :=
| AwaitUname                   (* await promisify(exec)('uname -m') *)
| AwaitFile (s : FileStage)    (* await this.downloadFile(...) *)
| Settled (p : Promise unit).

(** The array [downloadPromises]: the downloads pushed, in order. *)
Definition Downloads : Type := list (Artifact * Stage).

Definition promiseOf (d : Artifact * Stage) : Promise unit :=
  match snd d with
  | Settled p => p
  | _ => Pending
  end.

Definition Artifact_eqb (a b : Artifact) : bool :=
  match a, b with
  | Executable, Executable => true
  | ModelWeights, ModelWeights => true
  | _, _ => false
  end.

(** [downloadFile], up to its first [await]: the request is sent. *)
Definition startFile (url destination : jsstring) : M FileStage :=
  emit (HttpGet url) ;;;
  ret (AwaitResponse url destination).

(** [downloadFile], from one [await] to the next. *)
Definition resumeFile (s : FileStage) : M FileStage :=
  match s with
  | AwaitResponse url destination =>
      e <- ask ;;
      match axios_get e url with
      | Some err => ret (FileSettled (Rejected err))
      | None =>
          mkdir (str "file://" ++ homedir e ++ str "/.nomic/") ;;;
          createWriteStream destination ;;;
          ret (AwaitFinish destination)
      end
  | AwaitFinish destination =>
      e <- ask ;;
      match writer_error e destination with
      | Some err => ret (FileSettled (Rejected err))
      | None => ret (FileSettled (Fulfilled tt))
      end
  | FileSettled _ => ret s
  end.

(** Each download of the array in turn. *)
Fixpoint forEach (f : Artifact -> Stage -> M Stage) (ds : Downloads)
  : M Downloads :=
  match ds with
  | [] => ret []
  | d :: rest =>
      s <- f (fst d) (snd d) ;;
      rest' <- forEach f rest ;;
      ret ((fst d, s) :: rest')
  end.

Section Controller.

(** The values of the fields of [GPTArguments], and their [toString]: an
    option that is set holds a scalar, which has one. *)
Variable Value : Type.
Variable toString : Value -> jsstring.

(** [Object.entries(decoderConfig)]: the options in the order of the
    entries. *)
Definition DecoderConfig : Type := list (jsstring * Value).

Record GPT4All := mkGPT4All {
  bot : option Pid;
  model : jsstring;
  decoderConfig : DecoderConfig;
  executablePath : jsstring;
  modelPath : jsstring
}.

Definition setBot (this : GPT4All) (b : option Pid) : GPT4All :=
  mkGPT4All b (model this) (decoderConfig this)
            (executablePath this) (modelPath this).

(** [new GPT4All(model, forceDownload, decoderConfig)]; an argument left
    out is [None] and takes its default. *)
Definition constructor (model : option jsstring) (forceDownload : option bool)
    (decoderConfig : option DecoderConfig) : M (Completion GPT4All) :=
  let model :=
    match model with Some m => m | None => str "gpt4all-lora-quantized" end in
  let forceDownload :=
    match forceDownload with Some b => b | None => false end in
  let decoderConfig :=
    match decoderConfig with Some c => c | None => [] end in
  if negb (includes availableModels model)
  then ret (Throw (UnsupportedModel model))
  else
    e <- ask ;;
    ret (Normal (mkGPT4All None model decoderConfig
                   (homedir e ++ str "/.nomic/gpt4all")
                   (homedir e ++ str "/.nomic/" ++ model ++ str ".bin"))).

Definition downloadFile (url destination : jsstring) : M (Promise unit) :=
  e <- ask ;;
  emit (HttpGet url) ;;;
  match axios_get e url with
  | Some err => ret (Rejected err)
  | None =>
      (* the progress bar only writes to the console *)
      mkdir (str "file://" ++ homedir e ++ str "/.nomic/") ;;;
      createWriteStream destination ;;;
      match writer_error e destination with
      | Some err => ret (Rejected err)
      | None => ret (Fulfilled tt)
      end
  end.

(** The choice of [upstream], up to the download. *)
Definition upstream : M (Promise jsstring) :=
  e <- ask ;;
  if jsstring_eqb (platform e) (str "darwin") then
    emit (Exec (str "uname -m")) ;;;
    match uname_m e with
    | inl err => ret (Rejected err)
    | inr stdout =>
        if jsstring_eqb (trim stdout) (str "arm64")
        then ret (Fulfilled upstream_OSX_m1)
        else ret (Fulfilled upstream_OSX_intel)
    end
  else if jsstring_eqb (platform e) (str "linux") then
    ret (Fulfilled upstream_linux)
  else if jsstring_eqb (platform e) (str "win32") then
    ret (Fulfilled upstream_win64)
  else ret (Rejected (UnsupportedPlatform (platform e))).

Definition downloadExecutable (this : GPT4All) : M (Promise unit) :=
  await upstream (fun url =>
  await (downloadFile url (executablePath this)) (fun _ =>
  emit (Chmod (executablePath this) 493 (* 0o755 *)) ;;;
  emit (ConsoleLog (downloadedTo (executablePath this))) ;;;
  (* the function has returned; later the callback of chmod runs *)
  chmodCallback (executablePath this) 493 ;;;
  ret (Fulfilled tt))).

Definition modelUrl (this : GPT4All) : jsstring :=
  str "https://the-eye.eu/public/AI/models/nomic-ai/gpt4all/"
  ++ model this ++ str ".bin".

Definition downloadModel (this : GPT4All) : M (Promise unit) :=
  await (downloadFile (modelUrl this) (modelPath this)) (fun _ =>
  emit (ConsoleLog (downloadedTo (modelPath this))) ;;;
  ret (Fulfilled tt)).

Definition download (this : GPT4All) (a : Artifact) : M (Promise unit) :=
  match a with
  | Executable => downloadExecutable this
  | ModelWeights => downloadModel this
  end.

(** The downloads whose promises [init] pushes on [downloadPromises], by
    the files as they are when [init] is called. *)
Definition downloadPromises (this : GPT4All) (forceDownload : bool)
  : M (list Artifact) :=
  x <- existsSync (executablePath this) ;;
  m <- existsSync (modelPath this) ;;
  ret ((if forceDownload || negb x then [Executable] else [])
       ++ (if forceDownload || negb m then [ModelWeights] else [])).

(** A download, up to its first [await]. *)
Definition start (this : GPT4All) (a : Artifact) : M Stage :=
  match a with
  | Executable =>
      e <- ask ;;
      if jsstring_eqb (platform e) (str "darwin") then
        emit (Exec (str "uname -m")) ;;;
        ret AwaitUname
      else if jsstring_eqb (platform e) (str "linux") then
        s <- startFile upstream_linux (executablePath this) ;;
        ret (AwaitFile s)
      else if jsstring_eqb (platform e) (str "win32") then
        s <- startFile upstream_win64 (executablePath this) ;;
        ret (AwaitFile s)
      else ret (Settled (Rejected (UnsupportedPlatform (platform e))))
  | ModelWeights =>
      s <- startFile (modelUrl this) (modelPath this) ;;
      ret (AwaitFile s)
  end.

(** What follows [await this.downloadFile(...)] once that promise is
    settled. *)
Definition afterFile (this : GPT4All) (a : Artifact) (s : FileStage)
  : M Stage :=
  match s with
  | FileSettled (Fulfilled _) =>
      match a with
      | Executable =>
          emit (Chmod (executablePath this) 493 (* 0o755 *)) ;;;
          emit (ConsoleLog (downloadedTo (executablePath this))) ;;;
          chmodCallback (executablePath this) 493 ;;;
          ret (Settled (Fulfilled tt))
      | ModelWeights =>
          emit (ConsoleLog (downloadedTo (modelPath this))) ;;;
          ret (Settled (Fulfilled tt))
      end
  | FileSettled (Rejected err) => ret (Settled (Rejected err))
  | FileSettled Pending => ret (Settled Pending)
  | _ => ret (AwaitFile s)
  end.

(** A download, from one [await] to the next. *)
Definition resume (this : GPT4All) (a : Artifact) (s : Stage) : M Stage :=
  match s with
  | AwaitUname =>
      match a with
      | Executable =>
          e <- ask ;;
          match uname_m e with
          | inl err => ret (Settled (Rejected err))
          | inr stdout =>
              f <- startFile (if jsstring_eqb (trim stdout) (str "arm64")
                              then upstream_OSX_m1 else upstream_OSX_intel)
                             (executablePath this) ;;
              ret (AwaitFile f)
          end
      | ModelWeights => ret s   (* [downloadModel] has no such [await] *)
      end
  | AwaitFile f => f' <- resumeFile f ;; afterFile this a f'
  | Settled _ => ret s
  end.

(** A download has three [await]s at most. *)
Definition finish (this : GPT4All) (a : Artifact) (s : Stage) : M Stage :=
  s1 <- resume this a s ;;
  s2 <- resume this a s1 ;;
  resume this a s2.

(** The event loop while downloads are in progress: the host completes
    the pending operation of one download after the other, and that
    download goes on to its next [await]; in the end every pending
    operation has completed. *)
Fixpoint eventLoop (this : GPT4All) (completed : list Artifact)
    (ds : Downloads) : M Downloads :=
  match completed with
  | [] => forEach (finish this) ds
  | a :: rest =>
      ds' <- forEach (fun b s => if Artifact_eqb b a then resume this b s
                                 else ret s) ds ;;
      eventLoop this rest ds'
  end.

(** The two tests of [init], each followed by the call it guards. *)
Definition pushDownloads (this : GPT4All) (forceDownload : bool)
  : M Downloads :=
  x <- existsSync (executablePath this) ;;
  p1 <- (if forceDownload || negb x
         then s <- start this Executable ;; ret [(Executable, s)]
         else ret []) ;;
  m <- existsSync (modelPath this) ;;
  p2 <- (if forceDownload || negb m
         then s <- start this ModelWeights ;; ret [(ModelWeights, s)]
         else ret []) ;;
  ret (p1 ++ p2).

Definition init (this : GPT4All) (forceDownload : option bool)
  : M (Promise (list unit)) :=
  let forceDownload :=
    match forceDownload with Some b => b | None => false end in
  ds <- pushDownloads this forceDownload ;;
  e <- ask ;;
  ds' <- eventLoop this (completions e) ds ;;
  ret (Promise_all (map promiseOf ds')).

Definition close (this : GPT4All) : M GPT4All :=
  match bot this with
  | None => ret this
  | Some pid => emit (Kill pid) ;;; ret (setBot this None)
  end.

(** The loop over [Object.entries(this.decoderConfig)]. *)
Definition pushOptions (spawnArgs : list jsstring) (entries : DecoderConfig)
  : list jsstring :=
  fold_left
    (fun args kv => args ++ [str "--" ++ fst kv; toString (snd kv)])
    entries spawnArgs.

Definition spawnArgs (this : GPT4All) : list jsstring :=
  pushOptions [executablePath this; str "--model"; modelPath this]
              (decoderConfig this).

(** [open], up to its [await]: the controller with its new handle, and the
    promise of the call, which waits for the child to show its prompt. *)
Definition open (this : GPT4All) : M (GPT4All * Promise unit) :=
  this <- (match bot this with
           | Some _ => close this
           | None => ret this
           end) ;;
  let args := spawnArgs this in
  pid <- spawn (hd [] args) (tl args) ;;
  ret (setBot this (Some pid), Pending).

(** The promise of [open] as chunks of output arrive. *)
Definition openReady (chunks : list jsstring) (p : Promise unit)
  : Promise unit :=
  fold_left (fun p text => readyListener text p) chunks p.

(** [prompt], up to the promise it returns. *)
Definition prompt (this : GPT4All) (text : jsstring)
  : M (Completion PromptState) :=
  match bot this with
  | None => ret (Throw NotInitialized)
  | Some pid =>
      emit (StdinWrite pid (text ++ [LF])) ;;;
      ret (Normal (promptStart pid))
  end.

(** The calls a program makes on one controller. *)
Inductive Op : Type :=
| OpOpen
| OpClose
| OpPrompt (text : jsstring).

Definition exec (this : GPT4All) (op : Op) : M GPT4All :=
  match op with
  | OpOpen => r <- open this ;; ret (fst r)
  | OpClose => close this
  | OpPrompt text => prompt this text ;;; ret this
  end.

Fixpoint execAll (this : GPT4All) (ops : list Op) : M GPT4All :=
  match ops with
  | [] => ret this
  | op :: rest => this' <- exec this op ;; execAll this' rest
  end.

End Controller.

Arguments bot {Value} _.
Arguments model {Value} _.
Arguments decoderConfig {Value} _.
Arguments executablePath {Value} _.
Arguments modelPath {Value} _.
Arguments mkGPT4All {Value} _ _ _ _ _.
Arguments setBot {Value} _ _.
Arguments modelUrl {Value} _.
Arguments pushOptions {Value} toString _ _.
Arguments spawnArgs {Value} toString _.
Arguments open {Value} toString _ _.
Arguments constructor {Value} _ _ _ _.
Arguments downloadExecutable {Value} _ _.
Arguments downloadModel {Value} _ _.
Arguments download {Value} _ _ _.
Arguments downloadPromises {Value} _ _ _.
Arguments init {Value} _ _ _.
Arguments start {Value} _ _ _.
Arguments afterFile {Value} _ _ _ _.
Arguments resume {Value} _ _ _ _.
Arguments finish {Value} _ _ _ _.
Arguments eventLoop {Value} _ _ _ _.
Arguments pushDownloads {Value} _ _ _.
Arguments close {Value} _ _.
Arguments prompt {Value} _ _ _.
Arguments exec {Value} toString _ _ _.
Arguments execAll {Value} toString _ _ _.

(** The processes spawned and not killed since, oldest first. *)
Definition liveStep (acc : list Pid) (e : Effect) : list Pid :=
  match e with
  | Spawn pid _ _ => acc ++ [pid]
  | Kill pid => filter (fun p => negb (Nat.eqb p pid)) acc
  | _ => acc
  end.

Definition live (tr : list Effect) : list Pid := fold_left liveStep tr [].

(** The handles a controller holds. *)
Definition handles (b : option Pid) : list Pid :=
  match b with Some pid => [pid] | None => [] end.

(** The requests a trace makes to the network. *)
Definition networkIO (tr : list Effect) : list jsstring :=
  flat_map (fun e => match e with HttpGet url => [url] | _ => [] end) tr.

(** The request a download in progress has yet to send: that of
    [downloadExecutable] while it awaits [uname -m]. *)
Definition owed (e : Env) (d : Artifact * Stage) : list jsstring :=
  match d with
  | (Executable, AwaitUname) =>
      match uname_m e with
      | inr stdout =>
          [if jsstring_eqb (trim stdout) (str "arm64")
           then upstream_OSX_m1 else upstream_OSX_intel]
      | inl _ => []
      end
  | _ => []
  end.

Definition owedAll (e : Env) (ds : Downloads) : list jsstring :=
  flat_map (owed e) ds.

(** The host is one [downloadExecutable] has a binary for, at [url]. *)
Definition hostServes (e : Env) (url : jsstring) : Prop :=
  (platform e = str "linux" /\ url = upstream_linux)
  \/ (platform e = str "win32" /\ url = upstream_win64)
  \/ (platform e = str "darwin"
      /\ exists stdout : jsstring,
           uname_m e = inr stdout
           /\ url = if jsstring_eqb (trim stdout) (str "arm64")
                    then upstream_OSX_m1 else upstream_OSX_intel).

(** Total time of a list of delays. *)
Definition total (ds : list N) : N := fold_right N.add 0 ds.

(** The world with another answer to [chmod]. *)
Definition setChmodError (f : jsstring -> option Error) (w : World) : World :=
  mkWorld (mkEnv (homedir (env w)) (platform (env w)) (uname_m (env w))
                 (axios_get (env w)) (writer_error (env w))
                 (mkdir_error (env w)) f (completions (env w)))
          (files w) (modes w) (trace w) (uncaught w) (next_pid w).

(* ------------------------------------------------------------------ *)
(** ** Invariants *)

(** As long as the listeners are attached the promise is pending. *)
Definition attachedPending (st : PromptState) : Prop :=
  listening st = true -> promise st = Pending.

(** The handle held is the one process spawned and not killed. *)
Definition oneSession {Value : Type} (this : GPT4All Value) (w : World) : Prop :=
  live (trace w) = handles (bot this).

(* ------------------------------------------------------------------ *)
(** ** A sample host

    A Linux host on which every request succeeds, a fresh world on it, and
    controllers whose options are strings ([toString] of a string is the
    string itself). *)

Definition linuxHost : Env :=
  mkEnv (str "/home/u") (str "linux") (inr (str "x86_64"))
        (fun _ => None) (fun _ => None) None (fun _ => None)
        [ModelWeights; Executable; Executable; ModelWeights].

Definition freshWorld : World := mkWorld linuxHost [] [] [] [] 0%nat.

Definition EPERM : Error :=
  mkError (str "EPERM: operation not permitted, chmod").

Definition closedController : GPT4All jsstring :=
  mkGPT4All None (str "gpt4all-lora-quantized")
            [(str "threads", str "4"); (str "temp", str "0.1")]
            (str "/home/u/.nomic/gpt4all")
            (str "/home/u/.nomic/gpt4all-lora-quantized.bin").

Definition liveController : GPT4All jsstring :=
  setBot closedController (Some 7%nat).

Definition stringToString (v : jsstring) : jsstring := v.

(* ------------------------------------------------------------------ *)
(** ** Observations on runs and traces *)

(** Chunks of output delivered one after the other, each after a delay. *)
Definition timed (dcs : list (N * jsstring)) : list Event :=
  flat_map (fun dc => [Elapse (fst dc); Data (snd dc)]) dcs.

(** A chunk that does not end the turn, delivered before the timer of the
    chunk before it is due. *)
Definition trickles (dc : N * jsstring) : Prop :=
  fst dc < 4000 /\ endPattern (snd dc) = false.

Definition notLineTerminator (c : N) : bool := negb (isLineTerminator c).

(** The [chmod] requests of a trace. *)
Definition chmodRequests (tr : list Effect) : list (jsstring * N) :=
  flat_map (fun e => match e with Chmod path mode => [(path, mode)] | _ => [] end)
           tr.

(** The destination each download writes to. *)
Definition artifactPath {Value} (this : GPT4All Value) (a : Artifact)
  : jsstring :=
  match a with
  | Executable => executablePath this
  | ModelWeights => modelPath this
  end.

(** No file is lost from one world to the other. *)
Definition keeps (w w' : World) : Prop :=
  forall p : jsstring,
    includes (files w) p = true -> includes (files w') p = true.

(** A download in progress writes to the path of its artifact, and once it
    awaits the end of the write, or is fulfilled, the file is there. *)
Definition landed {Value} (this : GPT4All Value) (w : World)
    (d : Artifact * Stage) : Prop :=
  match snd d with
  | AwaitUname => True
  | AwaitFile (AwaitResponse _ dest) => dest = artifactPath this (fst d)
  | AwaitFile (AwaitFinish dest) =>
      dest = artifactPath this (fst d) /\ includes (files w) dest = true
  | AwaitFile (FileSettled (Fulfilled _)) =>
      includes (files w) (artifactPath this (fst d)) = true
  | AwaitFile (FileSettled _) => True
  | Settled (Fulfilled _) =>
      includes (files w) (artifactPath this (fst d)) = true
  | Settled _ => True
  end.

(** A host of a platform the class has no binary for, and a Mac whose
    [uname -m] prints [stdout]. *)
Definition freebsdHost : Env :=
  mkEnv (str "/home/u") (str "freebsd") (inr (str "amd64"))
        (fun _ => None) (fun _ => None) None (fun _ => None)
        [ModelWeights; ModelWeights].

Definition macHost (stdout : jsstring) : Env :=
  mkEnv (str "/Users/u") (str "darwin") (inr stdout)
        (fun _ => None) (fun _ => None) None (fun _ => None)
        [ModelWeights; Executable; ModelWeights; Executable].

Definition worldOn (e : Env) : World := mkWorld e [] [] [] [] 0%nat.

(* ================================================================== *)
(** * Properties *)

(** ** Strings and arrays *)

Lemma jsstring_eqb_eq (a b : jsstring) : jsstring_eqb a b = true <-> a = b.
Proof.
  revert b; induction a as [|x a IH]; intros [|y b]; simpl;
    try (split; [discriminate | congruence]); try tauto.
  rewrite andb_true_iff, N.eqb_eq, IH.
  split; [intros [-> ->]; reflexivity | intros [= -> ->]; auto].
Qed.

Lemma includes_In (xs : list jsstring) (x : jsstring) :
  includes xs x = true <-> In x xs.
Proof.
  unfold includes. rewrite existsb_exists. split.
  - intros (y & Hy & E). apply jsstring_eqb_eq in E. now subst.
  - intros H. exists x. split; [assumption | now apply jsstring_eqb_eq].
Qed.

Lemma includes_false (xs : list jsstring) (x : jsstring) :
  includes xs x = false <-> ~ In x xs.
Proof.
  rewrite <- includes_In. destruct (includes xs x); split; intros H;
    try reflexivity; try discriminate; try (intros K; discriminate).
  exfalso. now apply H.
Qed.

(** ** The reply of one [prompt] call *)

(** A settled promise is final: no event changes it. *)
Lemma settled_step (st : PromptState) (ev : Event) :
  promise st <> Pending -> promise (step st ev) = promise st.
Proof.
  intros H. destruct ev as [text|err|ms]; simpl.
  - destruct (listening st); [|reflexivity].
    unfold onStdoutData. destruct (endPattern text); simpl; [|reflexivity].
    destruct (promise st); [congruence | reflexivity | reflexivity].
  - destruct (listening st); [|reflexivity]. simpl.
    destruct (promise st); [congruence | reflexivity | reflexivity].
  - unfold elapse. simpl. destruct (timeoutId st) as [t|]; [|reflexivity].
    destruct (active t && (deadline t <=? now st + ms)); [|reflexivity].
    simpl. destruct (promise st); [congruence | reflexivity | reflexivity].
Qed.

Lemma settled_run (evs : list Event) (st : PromptState) :
  promise st <> Pending -> promise (run evs st) = promise st.
Proof.
  revert st; induction evs as [|ev evs IH]; intros st H; [reflexivity|].
  simpl. unfold run in IH. rewrite IH.
  - now apply settled_step.
  - rewrite settled_step; assumption.
Qed.

Lemma attachedPending_step (st : PromptState) (ev : Event) :
  attachedPending st -> attachedPending (step st ev).
Proof.
  unfold attachedPending. intros H. destruct ev as [text|err|ms]; simpl.
  - destruct (listening st) eqn:L; [|intros K; congruence].
    unfold onStdoutData. destruct (endPattern text); simpl.
    + discriminate.
    + intros _. now apply H.
  - destruct (listening st) eqn:L; [|intros K; congruence].
    simpl. discriminate.
  - unfold elapse. simpl. destruct (timeoutId st) as [t|]; [|exact H].
    destruct (active t && (deadline t <=? now st + ms)); [|exact H].
    simpl. discriminate.
Qed.

Lemma attachedPending_run (evs : list Event) (st : PromptState) :
  attachedPending st -> attachedPending (run evs st).
Proof.
  revert st; induction evs as [|ev evs IH]; intros st H; [exact H|].
  simpl. apply IH. now apply attachedPending_step.
Qed.

Lemma attachedPending_start (pid : Pid) : attachedPending (promptStart pid).
Proof. intros _. reflexivity. Qed.

(** A chunk that is not the end of the turn: the old timer is cleared, a new
    one is armed 4000 ms from now and the chunk is appended. *)
Lemma data_continues (st : PromptState) (text : jsstring) :
  listening st = true ->
  endPattern text = false ->
  step st (Data text) =
  mkPrompt (stdout_of st) (now st) (response st ++ text)
           (Some (mkTimeout (now st + 4000) true)) true (promise st).
Proof.
  intros L E. simpl. rewrite L. unfold onStdoutData. rewrite E. simpl.
  now rewrite L.
Qed.

(** Time passing short of the deadline only moves the clock. *)
Lemma elapse_short (st : PromptState) (d D : N) :
  timeoutId st = Some (mkTimeout D true) ->
  now st + d < D ->
  step st (Elapse d) =
  mkPrompt (stdout_of st) (now st + d) (response st) (timeoutId st)
           (listening st) (promise st).
Proof.
  intros T H. simpl. unfold elapse. simpl. rewrite T. simpl.
  apply N.leb_gt in H. now rewrite H.
Qed.

(** Time reaching the deadline runs the timer's callback. *)
Lemma elapse_due (st : PromptState) (d D : N) :
  timeoutId st = Some (mkTimeout D true) ->
  D <= now st + d ->
  step st (Elapse d) =
  mkPrompt (stdout_of st) (now st + d) (response st)
           (Some (mkTimeout D false)) false
           (resolve (dropPromptMarker (response st)) (promise st)).
Proof.
  intros T H. simpl. unfold elapse. simpl. rewrite T. simpl.
  apply N.leb_le in H. rewrite H. reflexivity.
Qed.

(** With no timer armed, time passing changes nothing but the clock. *)
Lemma elapse_idle (st : PromptState) (d : N) :
  timeoutId st = None ->
  step st (Elapse d) =
  mkPrompt (stdout_of st) (now st + d) (response st) None
           (listening st) (promise st).
Proof.
  intros T. simpl. unfold elapse. simpl. rewrite T. reflexivity.
Qed.

(** The end-of-turn chunk: resolution with the accumulator as it stands,
    prompt marker dropped; the chunk is appended afterwards. *)
Lemma data_ends_turn (st : PromptState) (text : jsstring) :
  listening st = true ->
  endPattern text = true ->
  step st (Data text) =
  mkPrompt (stdout_of st) (now st) (response st ++ text)
           (option_map (fun t => mkTimeout (deadline t) false) (timeoutId st))
           false
           (resolve (dropPromptMarker (response st)) (promise st)).
Proof.
  intros L E. simpl. rewrite L. unfold onStdoutData. rewrite E. reflexivity.
Qed.

(** A silent stretch after an armed timer: pending while the total is short
    of the deadline, resolved with the accumulator from then on. *)
Lemma silence_after_arming (ds : list N) :
  forall (st : PromptState) (D : N),
    timeoutId st = Some (mkTimeout D true) ->
    promise st = Pending ->
    now st < D ->
    promise (run (map Elapse ds) st) =
    if now st + total ds <? D then Pending
    else Fulfilled (dropPromptMarker (response st)).
Proof.
  induction ds as [|d ds IH]; intros st D T P H.
  - simpl. rewrite N.add_0_r. apply N.ltb_lt in H. now rewrite H.
  - change (run (map Elapse (d :: ds)) st)
      with (run (map Elapse ds) (step st (Elapse d))).
    destruct (N.lt_ge_cases (now st + d) D) as [Hlt|Hge].
    + rewrite (elapse_short st d D T Hlt).
      rewrite (IH _ D); simpl; try assumption.
      now rewrite N.add_assoc.
    + rewrite settled_run; rewrite (elapse_due st d D T Hge); simpl;
        rewrite P; simpl; try discriminate.
      assert (E : (now st + (d + total ds) <? D) = false)
        by (apply N.ltb_ge; lia).
      now rewrite E.
Qed.

(** C1.  A call to [prompt] on a live session whose output delivers the
    chunks "hello " and "world" (each within the 4000 ms of the timer) and
    then a chunk matching the end-of-turn pattern resolves with exactly
    "hello world": the last chunk is not part of the reply, no prompt marker
    is left, and nothing that happens later changes the outcome. *)
Theorem prompt_hello_world :
  forall (Value : Type) (this : GPT4All Value) (text : jsstring) (w : World)
         (pid : Pid) (eot : jsstring) (d0 d1 d2 : N) (later : list Event),
    bot this = Some pid ->
    endPattern eot = true ->
    d1 < 4000 -> d2 < 4000 ->
    exists (st0 : PromptState) (w' : World),
      prompt this text w = (Normal st0, w')
      /\ promise (run ([Elapse d0; Data (str "hello "); Elapse d1;
                        Data (str "world"); Elapse d2; Data eot] ++ later)
                      st0)
         = Fulfilled (str "hello world").
Proof.
  intros Value this text w pid eot d0 d1 d2 later B E H1 H2.
  exists (promptStart pid). eexists. split.
  - unfold prompt. rewrite B. reflexivity.
  - assert (R : promise (run [Elapse d0; Data (str "hello "); Elapse d1;
                              Data (str "world"); Elapse d2; Data eot]
                             (promptStart pid))
                = Fulfilled (str "hello world")).
    { unfold run. cbn [fold_left].
      rewrite (elapse_idle (promptStart pid) d0) by reflexivity.
      rewrite (data_continues _ (str "hello ")) by reflexivity.
      cbn [now response stdout_of promise].
      erewrite (elapse_short _ d1);
        [|reflexivity|unfold promptStart; cbn [now]; lia].
      cbn [now response stdout_of promise timeoutId listening].
      rewrite (data_continues _ (str "world")) by reflexivity.
      cbn [now response stdout_of promise].
      erewrite (elapse_short _ d2);
        [|reflexivity|unfold promptStart; cbn [now]; lia].
      cbn [now response stdout_of promise timeoutId listening].
      rewrite (data_ends_turn _ eot) by (reflexivity || assumption).
      reflexivity. }
    unfold run. rewrite fold_left_app. fold (run later).
    rewrite settled_run; fold (run [Elapse d0; Data (str "hello "); Elapse d1;
                                    Data (str "world"); Elapse d2; Data eot]
                                   (promptStart pid));
      rewrite R; [reflexivity | discriminate].
Qed.

(** The run of the specification: the end-of-turn chunk is the escape
    character, three dots, a line feed, the prompt marker and a blank. *)
Lemma prompt_hello_world_witness :
  exists (st0 : PromptState) (w' : World),
    prompt liveController (str "hi") freshWorld = (Normal st0, w')
    /\ promise (run ([Elapse 120; Data (str "hello "); Elapse 35;
                      Data (str "world"); Elapse 2;
                      Data (ESC :: str "..." ++ [LF] ++ str "> ")] ++ [])
                    st0)
       = Fulfilled (str "hello world").
Proof.
  apply (prompt_hello_world jsstring liveController _ _ 7%nat);
    [reflexivity | reflexivity | reflexivity | reflexivity].
Defined.

(** C2.  A call whose output delivers, at any time, the single chunk
    "partial", which is not an end of turn, and is silent from then on: the
    promise is pending as long as the silence has lasted less than 4000 ms
    and is resolved with exactly "partial" once it has lasted 4000 ms; and
    every chunk that is not an end of turn, whatever came before, clears the
    timer and arms it again 4000 ms from the time of the chunk, the promise
    staying pending. *)
Theorem prompt_partial_after_silence :
  forall (Value : Type) (this : GPT4All Value) (text : jsstring) (w : World)
         (pid : Pid),
    bot this = Some pid ->
    exists (st0 : PromptState) (w' : World),
      prompt this text w = (Normal st0, w')
      /\ (forall (d0 : N) (ds : list N),
             promise (run (Elapse d0 :: Data (str "partial")
                           :: map Elapse ds) st0) =
             if total ds <? 4000 then Pending
             else Fulfilled (str "partial"))
      /\ (forall (evs : list Event) (chunk : jsstring),
             listening (run evs st0) = true ->
             endPattern chunk = false ->
             timeoutId (step (run evs st0) (Data chunk)) =
             Some (mkTimeout (now (run evs st0) + 4000) true)
             /\ promise (step (run evs st0) (Data chunk)) = Pending).
Proof.
  intros Value this text w pid B.
  exists (promptStart pid). eexists. split; [|split].
  - unfold prompt. rewrite B. reflexivity.
  - intros d0 ds.
    change (run (Elapse d0 :: Data (str "partial") :: map Elapse ds)
                (promptStart pid))
      with (run (map Elapse ds)
                (step (step (promptStart pid) (Elapse d0))
                      (Data (str "partial")))).
    rewrite (elapse_idle (promptStart pid) d0) by reflexivity.
    rewrite data_continues by reflexivity.
    unfold promptStart. cbn [now response stdout_of promise].
    rewrite (silence_after_arming ds _ (0 + d0 + 4000));
      [|reflexivity|reflexivity|cbn [now]; lia].
    cbn [now response].
    destruct (N.ltb_spec (total ds) 4000) as [Hlt|Hge].
    + assert (E : (0 + d0 + total ds <? 0 + d0 + 4000) = true)
        by (apply N.ltb_lt; lia).
      now rewrite E.
    + assert (E : (0 + d0 + total ds <? 0 + d0 + 4000) = false)
        by (apply N.ltb_ge; lia).
      now rewrite E.
  - intros evs chunk L E.
    rewrite data_continues by assumption. simpl. split; [reflexivity|].
    exact (attachedPending_run evs _ (attachedPending_start pid) L).
Qed.

(** The same on the sample session. *)
Lemma prompt_partial_after_silence_witness :
  exists (st0 : PromptState) (w' : World),
    prompt liveController (str "hi") freshWorld = (Normal st0, w')
    /\ (forall (d0 : N) (ds : list N),
           promise (run (Elapse d0 :: Data (str "partial")
                         :: map Elapse ds) st0) =
           if total ds <? 4000 then Pending
           else Fulfilled (str "partial"))
    /\ (forall (evs : list Event) (chunk : jsstring),
           listening (run evs st0) = true ->
           endPattern chunk = false ->
           timeoutId (step (run evs st0) (Data chunk)) =
           Some (mkTimeout (now (run evs st0) + 4000) true)
           /\ promise (step (run evs st0) (Data chunk)) = Pending).
Proof.
  apply (prompt_partial_after_silence jsstring liveController _ _ 7%nat).
  reflexivity.
Defined.

Lemma dropPromptMarker_marker (s : jsstring) :
  dropPromptMarker (s ++ [GT]) = s.
Proof.
  unfold dropPromptMarker, endsWithGT, sliceInit.
  rewrite rev_app_distr. simpl. apply removelast_last.
Qed.

Lemma dropPromptMarker_other (s : jsstring) :
  endsWithGT s = false -> dropPromptMarker s = s.
Proof. unfold dropPromptMarker. now intros ->. Qed.

(** C9, as amended.  On the end-of-turn path of a [prompt] call the promise
    is resolved with the accumulator as it was before the matching chunk,
    less one trailing prompt marker when it ends with one; the chunk is not
    part of the reply: it is appended to the accumulator after the
    resolution, when both listeners are already detached. *)
Theorem end_of_turn_chunk_not_in_reply :
  forall (Value : Type) (this : GPT4All Value) (text : jsstring) (w : World)
         (pid : Pid),
    bot this = Some pid ->
    exists (st0 : PromptState) (w' : World),
      prompt this text w = (Normal st0, w')
      /\ forall (evs : list Event) (chunk : jsstring),
           listening (run evs st0) = true ->
           endPattern chunk = true ->
           promise (step (run evs st0) (Data chunk)) =
           Fulfilled (dropPromptMarker (response (run evs st0)))
           /\ response (step (run evs st0) (Data chunk)) =
              response (run evs st0) ++ chunk
           /\ listening (step (run evs st0) (Data chunk)) = false
           /\ forall later : list Event,
                promise (run later (step (run evs st0) (Data chunk))) =
                Fulfilled (dropPromptMarker (response (run evs st0))).
Proof.
  intros Value this text w pid B.
  exists (promptStart pid). eexists. split.
  - unfold prompt. rewrite B. reflexivity.
  - intros evs chunk L E.
    pose proof (attachedPending_run evs _ (attachedPending_start pid) L) as P.
    rewrite data_ends_turn by assumption. cbn [promise response listening].
    rewrite P. repeat split.
    intros later. rewrite settled_run; cbn [promise]; [reflexivity|discriminate].
Qed.

(** The same on the sample session. *)
Lemma end_of_turn_chunk_not_in_reply_witness :
  exists (st0 : PromptState) (w' : World),
    prompt liveController (str "hi") freshWorld = (Normal st0, w')
    /\ forall (evs : list Event) (chunk : jsstring),
         listening (run evs st0) = true ->
         endPattern chunk = true ->
         promise (step (run evs st0) (Data chunk)) =
         Fulfilled (dropPromptMarker (response (run evs st0)))
         /\ response (step (run evs st0) (Data chunk)) =
            response (run evs st0) ++ chunk
         /\ listening (step (run evs st0) (Data chunk)) = false
         /\ forall later : list Event,
              promise (run later (step (run evs st0) (Data chunk))) =
              Fulfilled (dropPromptMarker (response (run evs st0))).
Proof.
  apply (end_of_turn_chunk_not_in_reply jsstring liveController _ _ 7%nat).
  reflexivity.
Defined.

(** C9, as stated, fails: when the accumulator is "a>" as the end-of-turn
    chunk arrives, the reply is "a" and not the accumulator. *)
Lemma end_of_turn_reply_is_not_the_accumulator :
  listening (run [Data (str "a>")] (promptStart 7%nat)) = true
  /\ endPattern [ESC; LF; GT] = true
  /\ response (run [Data (str "a>")] (promptStart 7%nat)) = str "a>"
  /\ promise (step (run [Data (str "a>")] (promptStart 7%nat))
                   (Data [ESC; LF; GT]))
     = Fulfilled (str "a")
  /\ promise (step (run [Data (str "a>")] (promptStart 7%nat))
                   (Data [ESC; LF; GT]))
     <> Fulfilled (response (run [Data (str "a>")] (promptStart 7%nat))).
Proof.
  repeat split; try reflexivity. vm_compute. discriminate.
Qed.

(** ** The constructor *)

(** C4.  The constructor succeeds for each of the two supported names and
    throws [UnsupportedModel], synchronously and leaving the world as it
    was, for every other string: it throws if and only if the name is not
    in the set. *)
Theorem constructor_supported_iff :
  forall (Value : Type) (model : jsstring) (forceDownload : option bool)
         (decoderConfig : option (DecoderConfig Value)) (w : World),
    availableModels = [str "gpt4all-lora-quantized";
                       str "gpt4all-lora-unfiltered-quantized"]
    /\ (In model availableModels ->
        exists this : GPT4All Value,
          constructor (Some model) forceDownload decoderConfig w
          = (Normal this, w))
    /\ (~ In model availableModels ->
        constructor (Some model) forceDownload decoderConfig w
        = (Throw (UnsupportedModel model), w))
    /\ ((exists e : Error,
            fst (constructor (Some model) forceDownload decoderConfig w)
            = Throw e)
        <-> ~ In model availableModels).
Proof.
  intros Value model fd cfg w.
  assert (Hin : In model availableModels ->
                exists this : GPT4All Value,
                  constructor (Some model) fd cfg w = (Normal this, w)).
  { intros H. apply includes_In in H. unfold constructor. rewrite H.
    simpl. eexists. reflexivity. }
  assert (Hout : ~ In model availableModels ->
                 constructor (Some model) fd cfg w
                 = (Throw (UnsupportedModel model), w)).
  { intros H. apply includes_false in H. unfold constructor. rewrite H.
    reflexivity. }
  repeat split; try assumption.
  - intros [e He] H. destruct (Hin H) as [this Ht]. rewrite Ht in He.
    discriminate.
  - intros H. exists (UnsupportedModel model). now rewrite (Hout H).
Qed.

(** C10.  The constructor's [forceDownload] has no effect: two calls that
    differ only in it give the same result and the same world; the
    constructor leaves the world as it was (no effect is performed) and
    reads nothing of it but the home directory; [init] has a
    [forceDownload] of its own, [false] when left out. *)
Theorem constructor_ignores_forceDownload :
  forall (Value : Type) (model : option jsstring) (fd1 fd2 : option bool)
         (decoderConfig : option (DecoderConfig Value)) (w : World),
    constructor model fd1 decoderConfig w
    = constructor model fd2 decoderConfig w
    /\ snd (constructor model fd1 decoderConfig w) = w
    /\ (forall w2 : World,
           homedir (env w2) = homedir (env w) ->
           fst (constructor model fd1 decoderConfig w2)
           = fst (constructor model fd2 decoderConfig w))
    /\ (forall (this : GPT4All Value) (w1 : World),
           init this None w1 = init this (Some false) w1).
Proof.
  intros Value model fd1 fd2 cfg w. unfold constructor.
  repeat split.
  - destruct (negb (includes availableModels _)); reflexivity.
  - intros w2 H.
    destruct (negb (includes availableModels _)); [reflexivity|].
    unfold bind, ask, ret. simpl. now rewrite H.
Qed.

(** ** [prompt] *)

(** C5.  Without a live session [prompt] throws [NotInitialized] at once
    and performs no effect, so nothing is written to any input stream; with
    a live session its one effect is to write the text followed by a line
    feed to the input stream of that process, and it returns a pending
    promise. *)
Theorem prompt_requires_session :
  forall (Value : Type) (this : GPT4All Value) (text : jsstring) (w : World),
    (bot this = None ->
     prompt this text w = (Throw NotInitialized, w))
    /\ (forall pid : Pid,
           bot this = Some pid ->
           exists (st0 : PromptState) (w' : World),
             prompt this text w = (Normal st0, w')
             /\ trace w' = trace w ++ [StdinWrite pid (text ++ [LF])]
             /\ promise st0 = Pending
             /\ response st0 = []
             /\ listening st0 = true).
Proof.
  intros Value this text w. unfold prompt. split.
  - intros ->. reflexivity.
  - intros pid ->. do 2 eexists. split; [reflexivity|].
    repeat split.
Qed.

(** ** [open] and [close] *)

Lemma pushOptions_flat_map {Value : Type} (toString : Value -> jsstring)
    (entries : DecoderConfig Value) :
  forall args : list jsstring,
    pushOptions toString args entries =
    args ++ flat_map (fun kv => [str "--" ++ fst kv; toString (snd kv)])
                     entries.
Proof.
  unfold pushOptions.
  induction entries as [|kv entries IH]; intros args; simpl.
  - now rewrite app_nil_r.
  - rewrite IH, <- app_assoc. reflexivity.
Qed.

Lemma live_snoc (tr : list Effect) (e : Effect) :
  live (tr ++ [e]) = liveStep (live tr) e.
Proof. unfold live. now rewrite fold_left_app. Qed.

(** [close] on a live session: one [kill], and the handle is cleared. *)
Lemma close_live {Value : Type} (this : GPT4All Value) (w : World) (pid : Pid) :
  bot this = Some pid ->
  bot (fst (close this w)) = None
  /\ trace (snd (close this w)) = trace w ++ [Kill pid].
Proof. intros B. unfold close. rewrite B. split; reflexivity. Qed.

Lemma close_oneSession {Value : Type} (this : GPT4All Value) (w : World) :
  oneSession this w -> oneSession (fst (close this w)) (snd (close this w)).
Proof.
  unfold oneSession, close. intros H. destruct (bot this) as [pid|] eqn:B.
  - simpl. rewrite live_snoc, H. simpl. now rewrite Nat.eqb_refl.
  - simpl. now rewrite B.
Qed.

Lemma open_oneSession {Value : Type} (toString : Value -> jsstring)
    (this : GPT4All Value) (w : World) :
  oneSession this w ->
  oneSession (fst (fst (open toString this w))) (snd (open toString this w)).
Proof.
  unfold oneSession, open, close. intros H.
  destruct (bot this) as [pid|] eqn:B; simpl.
  - rewrite !live_snoc, H. simpl. now rewrite Nat.eqb_refl.
  - rewrite live_snoc, H. reflexivity.
Qed.

Lemma exec_oneSession {Value : Type} (toString : Value -> jsstring)
    (this : GPT4All Value) (op : Op) (w : World) :
  oneSession this w ->
  oneSession (fst (exec toString this op w)) (snd (exec toString this op w)).
Proof.
  intros H. destruct op as [| |text].
  - unfold exec, bind. pose proof (open_oneSession toString this w H) as K.
    destruct (open toString this w) as [[this' p] w']. exact K.
  - now apply close_oneSession.
  - unfold exec, prompt, bind. unfold oneSession in *.
    destruct (bot this) as [pid|] eqn:B; simpl.
    + rewrite live_snoc, H, B. reflexivity.
    + now rewrite B.
Qed.

Lemma execAll_oneSession {Value : Type} (toString : Value -> jsstring)
    (ops : list Op) :
  forall (this : GPT4All Value) (w : World),
    oneSession this w ->
    oneSession (fst (execAll toString this ops w))
               (snd (execAll toString this ops w)).
Proof.
  induction ops as [|op ops IH]; intros this w H; [exact H|].
  simpl. unfold bind.
  pose proof (exec_oneSession toString this op w H) as K.
  destruct (exec toString this op w) as [this' w']. now apply IH.
Qed.

(** The promise of [open] is never rejected by what the child prints. *)
Lemma openReady_not_rejected (chunks : list jsstring) :
  forall (p : Promise unit) (e : Error),
    (forall e', p <> Rejected e') -> openReady chunks p <> Rejected e.
Proof.
  unfold openReady.
  induction chunks as [|c chunks IH]; intros p e H; [apply H|].
  simpl. apply IH. intros e'. unfold readyListener.
  destruct (includesChar GT c); [|apply H].
  destruct p; simpl; try discriminate. apply H.
Qed.

(** C7.  Along any sequence of [open], [close] and [prompt] calls on a
    controller, the processes spawned and not killed are exactly the handle
    the controller holds, so at most one; and [open] on a live session is
    [close], which kills the process and clears the handle, followed by
    [open]: the old process is killed, then the new one is spawned and
    becomes the handle, and the promise of [open] is never rejected. *)
Theorem one_live_process :
  forall (Value : Type) (toString : Value -> jsstring)
         (this : GPT4All Value) (w : World) (ops : list Op),
    live (trace w) = handles (bot this) ->
    live (trace (snd (execAll toString this ops w)))
    = handles (bot (fst (execAll toString this ops w)))
    /\ (List.length (live (trace (snd (execAll toString this ops w)))) <= 1)%nat
    /\ forall (this' : GPT4All Value) (w' : World) (pid : Pid),
         execAll toString this ops w = (this', w') ->
         bot this' = Some pid ->
         bot (fst (close this' w')) = None
         /\ trace (snd (close this' w')) = trace w' ++ [Kill pid]
         /\ open toString this' w'
            = open toString (fst (close this' w')) (snd (close this' w'))
         /\ (exists new : Pid,
                trace (snd (open toString this' w'))
                = trace w' ++ [Kill pid;
                               Spawn new (executablePath this')
                                     (tl (spawnArgs toString this'))]
                /\ bot (fst (fst (open toString this' w'))) = Some new
                /\ live (trace (snd (open toString this' w'))) = [new])
         /\ forall (chunks : list jsstring) (e : Error),
              openReady chunks (snd (fst (open toString this' w')))
              <> Rejected e.
Proof.
  intros Value toString this w ops H.
  pose proof (execAll_oneSession toString ops this w H) as K.
  unfold oneSession in K. split; [exact K|]. split.
  - rewrite K. destruct (bot (fst (execAll toString this ops w))); simpl; auto.
  - intros this' w' pid E B. rewrite E in K. simpl in K.
    destruct (close_live this' w' pid B) as [C1 C2].
    split; [exact C1|]. split; [exact C2|].
    pose proof (open_oneSession toString this' w' K) as O.
    unfold oneSession in O. revert O.
    unfold open, close. rewrite B. simpl. intros O.
    split; [reflexivity|]. split.
    + exists (next_pid w'). repeat split.
      * rewrite <- app_assoc. unfold spawnArgs.
        rewrite !pushOptions_flat_map. reflexivity.
      * exact O.
    + intros chunks e. apply openReady_not_rejected. discriminate.
Qed.

(** A closed controller in a fresh world, opened, prompted and opened
    again. *)
Lemma one_live_process_witness :
  live (trace (snd (execAll stringToString closedController
                            [OpOpen; OpPrompt (str "hi"); OpOpen]
                            freshWorld)))
  = handles (bot (fst (execAll stringToString closedController
                               [OpOpen; OpPrompt (str "hi"); OpOpen]
                               freshWorld)))
  /\ (List.length (live (trace (snd (execAll stringToString closedController
                                        [OpOpen; OpPrompt (str "hi"); OpOpen]
                                        freshWorld)))) <= 1)%nat
  /\ forall (this' : GPT4All jsstring) (w' : World) (pid : Pid),
       execAll stringToString closedController
               [OpOpen; OpPrompt (str "hi"); OpOpen] freshWorld
       = (this', w') ->
       bot this' = Some pid ->
       bot (fst (close this' w')) = None
       /\ trace (snd (close this' w')) = trace w' ++ [Kill pid]
       /\ open stringToString this' w'
          = open stringToString (fst (close this' w')) (snd (close this' w'))
       /\ (exists new : Pid,
              trace (snd (open stringToString this' w'))
              = trace w' ++ [Kill pid;
                             Spawn new (executablePath this')
                                   (tl (spawnArgs stringToString this'))]
              /\ bot (fst (fst (open stringToString this' w'))) = Some new
              /\ live (trace (snd (open stringToString this' w'))) = [new])
       /\ forall (chunks : list jsstring) (e : Error),
            openReady chunks (snd (fst (open stringToString this' w')))
            <> Rejected e.
Proof.
  apply (one_live_process jsstring stringToString closedController freshWorld).
  reflexivity.
Defined.

(** C8.  For every decoder configuration, [open] spawns the executable
    with the arguments [--model], the model path and then, entry by entry
    and in the order of the entries, [--] followed by the key as it is and
    the value's [toString] as it is. *)
Theorem open_argv :
  forall (Value : Type) (toString : Value -> jsstring)
         (this : GPT4All Value) (w : World),
    exists pid : Pid,
      trace (snd (open toString this w))
      = trace (snd (close this w))
        ++ [Spawn pid (executablePath this)
                  (str "--model" :: modelPath this
                   :: flat_map (fun kv => [str "--" ++ fst kv;
                                           toString (snd kv)])
                               (decoderConfig this))]
      /\ bot (fst (fst (open toString this w))) = Some pid.
Proof.
  intros Value toString this w. unfold open, close, spawnArgs.
  destruct (bot this) as [old|]; simpl;
    rewrite pushOptions_flat_map; simpl; eexists; split; reflexivity.
Qed.

(** ** Provisioning *)

Lemma networkIO_snoc (tr : list Effect) (e : Effect) :
  networkIO (tr ++ [e]) =
  networkIO tr ++ match e with HttpGet url => [url] | _ => [] end.
Proof.
  unfold networkIO. rewrite flat_map_app. simpl. now rewrite app_nil_r.
Qed.

Ltac unfold_world :=
  unfold downloadExecutable, downloadModel, downloadFile, upstream, await,
    mkdir, createWriteStream, chmodCallback, throwInCallback, emit, ask,
    bind, ret;
  cbn [env files modes trace uncaught next_pid fst snd homedir platform
       uname_m axios_get writer_error mkdir_error chmod_error].

Ltac split_oracle :=
  repeat match goal with
         | |- context [match ?x with _ => _ end] =>
             lazymatch x with
             | context [match _ with _ => _ end] => fail
             | _ => destruct x eqn:?
             end;
             cbn [env files modes trace uncaught next_pid fst snd homedir platform
       uname_m axios_get writer_error mkdir_error chmod_error]
         end.

Ltac unfold_stages :=
  unfold finish, resume, start, afterFile, resumeFile, startFile,
    downloadExecutable, downloadModel, downloadFile, upstream, await,
    mkdir, createWriteStream, chmodCallback, throwInCallback, emit, ask,
    bind, ret;
  cbn [env files modes trace uncaught next_pid fst snd homedir platform
       uname_m axios_get writer_error mkdir_error chmod_error completions].

(** A download taken alone from its start through its three [await]s is
    the call run to its end. *)
Lemma staged_download {Value : Type} (this : GPT4All Value) (a : Artifact)
    (w : World) :
  finish this a (fst (start this a w)) (snd (start this a w))
  = (Settled (fst (download this a w)), snd (download this a w)).
Proof.
  destruct w as [[h p u ax wr mk c cs] fl md tr un np].
  destruct a; unfold download; unfold_stages; split_oracle; reflexivity.
Qed.

(** One step of a download: the host is left as it is, and the one request
    sent, if any, is the one the download owed. *)
Lemma resume_requests {Value : Type} (this : GPT4All Value) (a : Artifact)
    (s : Stage) (w : World) :
  env (snd (resume this a s w)) = env w
  /\ networkIO (trace (snd (resume this a s w)))
     = networkIO (trace w) ++ owed (env w) (a, s)
  /\ owed (env w) (a, fst (resume this a s w)) = [].
Proof.
  destruct w as [[h p u ax wr mk c cs] fl md tr un np].
  destruct a, s as [|[url dest|dest|[|[]|e]]|q]; unfold owed;
    unfold_stages; split_oracle;
    rewrite ?networkIO_snoc, ?app_nil_r; repeat split; reflexivity.
Qed.

Lemma finish_requests {Value : Type} (this : GPT4All Value) (a : Artifact)
    (s : Stage) (w : World) :
  env (snd (finish this a s w)) = env w
  /\ networkIO (trace (snd (finish this a s w)))
     = networkIO (trace w) ++ owed (env w) (a, s).
Proof.
  unfold finish, bind.
  destruct (resume_requests this a s w) as (E1 & N1 & O1).
  destruct (resume this a s w) as [s1 w1]. cbn [fst snd] in *.
  destruct (resume_requests this a s1 w1) as (E2 & N2 & O2).
  destruct (resume this a s1 w1) as [s2 w2]. cbn [fst snd] in *.
  destruct (resume_requests this a s2 w2) as (E3 & N3 & _).
  rewrite E1 in E2, N2, O2. rewrite E2 in E3, N3.
  rewrite E3, N3, N2, N1, O1, O2, !app_nil_r. split; reflexivity.
Qed.

Lemma finishAll_requests {Value : Type} (this : GPT4All Value)
    (ds : Downloads) :
  forall w : World,
    env (snd (forEach (finish this) ds w)) = env w
    /\ networkIO (trace (snd (forEach (finish this) ds w)))
       = networkIO (trace w) ++ owedAll (env w) ds.
Proof.
  induction ds as [|[a s] ds IH]; intros w.
  - simpl. rewrite app_nil_r. split; reflexivity.
  - cbn [forEach fst snd]. unfold bind.
    destruct (finish_requests this a s w) as [E1 N1].
    destruct (finish this a s w) as [s1 w1]. cbn [fst snd] in *.
    destruct (IH w1) as [E2 N2].
    destruct (forEach (finish this) ds w1) as [ds' w2]. cbn [fst snd] in *.
    cbn [ret snd]. rewrite E2, N2, N1, E1, <- app_assoc.
    split; reflexivity.
Qed.

(** The completion of an operation of [downloadModel] sends no request and
    leaves what is owed; that of an operation of [downloadExecutable]
    sends what is owed. *)
Lemma resumeIf_requests {Value : Type} (this : GPT4All Value)
    (a b : Artifact) (s : Stage) (w : World) :
  env (snd ((if Artifact_eqb b a then resume this b s else ret s) w)) = env w
  /\ networkIO
       (trace (snd ((if Artifact_eqb b a then resume this b s else ret s) w)))
     = networkIO (trace w)
       ++ match a with Executable => owed (env w) (b, s) | _ => [] end
  /\ owed (env w)
          (b, fst ((if Artifact_eqb b a then resume this b s else ret s) w))
     = match a with Executable => [] | _ => owed (env w) (b, s) end.
Proof.
  destruct (resume_requests this b s w) as (E1 & N1 & O1).
  destruct a, b; cbn [Artifact_eqb]; unfold ret; cbn [fst snd owed] in *;
    rewrite ?app_nil_r in *; repeat split; assumption || reflexivity.
Qed.

Lemma resumeOf_requests {Value : Type} (this : GPT4All Value) (a : Artifact)
    (ds : Downloads) :
  forall w : World,
    env (snd (forEach (fun b s => if Artifact_eqb b a then resume this b s
                                  else ret s) ds w)) = env w
    /\ networkIO
         (trace (snd (forEach (fun b s => if Artifact_eqb b a
                                          then resume this b s else ret s)
                              ds w)))
       = networkIO (trace w)
         ++ match a with Executable => owedAll (env w) ds | _ => [] end
    /\ owedAll (env w)
               (fst (forEach (fun b s => if Artifact_eqb b a
                                         then resume this b s else ret s)
                             ds w))
       = match a with Executable => [] | _ => owedAll (env w) ds end.
Proof.
  set (f := fun b s => if Artifact_eqb b a then resume this b s else ret s).
  induction ds as [|[b s] ds IH]; intros w.
  - simpl. destruct a; rewrite ?app_nil_r; repeat split; reflexivity.
  - cbn [forEach fst snd]. unfold bind.
    destruct (resumeIf_requests this a b s w) as (E1 & N1 & O1).
    change ((if Artifact_eqb b a then resume this b s else ret s) w)
      with (f b s w) in E1, N1, O1.
    destruct (f b s w) as [s1 w1]. cbn [fst snd] in *.
    destruct (IH w1) as (E2 & N2 & O2).
    destruct (forEach f ds w1) as [ds' w2]. cbn [fst snd ret] in *.
    unfold owedAll in *. cbn [flat_map].
    rewrite E1 in N2, O2, E2. rewrite E2, N2, N1, O1, O2.
    destruct a; rewrite ?app_nil_r, <- ?app_assoc;
      repeat split; reflexivity.
Qed.

(** Whatever the order in which the host completes the operations, the
    requests sent while the downloads run are those still owed. *)
Lemma eventLoop_requests {Value : Type} (this : GPT4All Value)
    (completed : list Artifact) :
  forall (ds : Downloads) (w : World),
    env (snd (eventLoop this completed ds w)) = env w
    /\ networkIO (trace (snd (eventLoop this completed ds w)))
       = networkIO (trace w) ++ owedAll (env w) ds.
Proof.
  induction completed as [|a rest IH]; intros ds w.
  - apply finishAll_requests.
  - cbn [eventLoop]. unfold bind.
    destruct (resumeOf_requests this a ds w) as (E1 & N1 & O1).
    destruct (forEach _ ds w) as [ds' w1]. cbn [fst snd] in *.
    destruct (IH ds' w1) as [E2 N2].
    rewrite E2, N2, N1, E1, O1.
    destruct a; rewrite ?app_nil_r, <- ?app_assoc, ?app_nil_r;
      split; reflexivity.
Qed.

(** With nothing pushed the event loop has nothing to do. *)
Lemma eventLoop_nil {Value : Type} (this : GPT4All Value)
    (completed : list Artifact) (w : World) :
  eventLoop this completed [] w = ([], w).
Proof.
  induction completed as [|a rest IH]; [reflexivity|].
  cbn [eventLoop forEach]. unfold bind, ret. exact IH.
Qed.

(** The tests of [init] and the starts of the downloads leave the host and
    the files as they are. *)
Lemma pushDownloads_world {Value : Type} (this : GPT4All Value)
    (forceDownload : bool) (w : World) :
  env (snd (pushDownloads this forceDownload w)) = env w
  /\ files (snd (pushDownloads this forceDownload w)) = files w
  /\ map fst (fst (pushDownloads this forceDownload w))
     = fst (downloadPromises this forceDownload w).
Proof.
  destruct w as [[h p u ax wr mk c cs] fl md tr un np].
  unfold pushDownloads, downloadPromises, existsSync. unfold_stages.
  split_oracle; repeat split; reflexivity.
Qed.

Lemma init_requests {Value : Type} (this : GPT4All Value)
    (forceDownload : bool) (w : World) :
  networkIO (trace (snd (init this (Some forceDownload) w)))
  = networkIO (trace (snd (pushDownloads this forceDownload w)))
    ++ owedAll (env w) (fst (pushDownloads this forceDownload w)).
Proof.
  unfold init, bind, ask.
  destruct (pushDownloads_world this forceDownload w) as (E & _ & _).
  destruct (pushDownloads this forceDownload w) as [ds w0]. cbn [fst snd] in *.
  destruct (eventLoop_requests this (completions (env w0)) ds w0) as [_ N].
  destruct (eventLoop this (completions (env w0)) ds w0) as [ds' w1].
  cbn [fst snd ret] in *. now rewrite N, E.
Qed.

(** C6, as amended.  On a host for which [downloadExecutable] has a binary
    (linux, win32, or darwin with a [uname -m] that succeeds), whatever the
    order in which the host completes the operations of the two downloads:
    the requests [init] sends are one for the executable if and only if
    [forceDownload] is set or its path does not exist, and one for the
    model weights if and only if [forceDownload] is set or its path does
    not exist (the weights first on darwin, where the executable waits for
    [uname -m]; the executable first elsewhere); so with [forceDownload]
    both are requested whatever exists, and without it, when both files
    exist, [init] is fulfilled at once and leaves the world as it was. *)
Theorem init_fetches_iff_forced_or_missing :
  forall (Value : Type) (this : GPT4All Value) (forceDownload : bool)
         (w : World) (url : jsstring),
    hostServes (env w) url ->
    networkIO (trace (snd (init this (Some forceDownload) w)))
    = networkIO (trace w)
      ++ (if jsstring_eqb (platform (env w)) (str "darwin")
          then (if forceDownload || negb (includes (files w) (modelPath this))
                then [modelUrl this] else [])
               ++ (if forceDownload
                      || negb (includes (files w) (executablePath this))
                   then [url] else [])
          else (if forceDownload
                   || negb (includes (files w) (executablePath this))
                then [url] else [])
               ++ (if forceDownload || negb (includes (files w) (modelPath this))
                   then [modelUrl this] else []))
    /\ (forceDownload = true ->
        networkIO (trace (snd (init this (Some forceDownload) w)))
        = networkIO (trace w)
          ++ (if jsstring_eqb (platform (env w)) (str "darwin")
              then [modelUrl this; url] else [url; modelUrl this]))
    /\ (forceDownload = false ->
        includes (files w) (executablePath this) = true ->
        includes (files w) (modelPath this) = true ->
        init this (Some forceDownload) w = (Fulfilled [], w)).
Proof.
  intros Value this f w url H.
  assert (G : networkIO (trace (snd (init this (Some f) w)))
              = networkIO (trace w)
                ++ (if jsstring_eqb (platform (env w)) (str "darwin")
                    then (if f || negb (includes (files w) (modelPath this))
                          then [modelUrl this] else [])
                         ++ (if f || negb (includes (files w)
                                                    (executablePath this))
                             then [url] else [])
                    else (if f || negb (includes (files w)
                                                 (executablePath this))
                          then [url] else [])
                         ++ (if f || negb (includes (files w)
                                                    (modelPath this))
                             then [modelUrl this] else []))).
  { rewrite init_requests.
    destruct w as [[h p u ax wr mk c cs] fl md tr un np].
    unfold hostServes in H. cbn [env files platform uname_m] in *.
    destruct H as [[-> ->] | [[-> ->] | [-> (stdout & -> & ->)]]];
      unfold pushDownloads, existsSync, owedAll, owed; unfold_stages;
      destruct f;
      destruct (includes fl (executablePath this)) eqn:X;
      destruct (includes fl (modelPath this)) eqn:M;
      repeat (cbv beta iota;
              cbn [env platform uname_m files fst snd trace orb negb app
                   flat_map];
              rewrite ?X, ?M;
              repeat match goal with
                     | |- context [jsstring_eqb (str ?a) (str ?b)] =>
                         let v := eval vm_compute
                                  in (jsstring_eqb (str a) (str b)) in
                         change (jsstring_eqb (str a) (str b)) with v
                     end);
      rewrite ?networkIO_snoc, ?app_nil_r, <- ?app_assoc; reflexivity. }
  split; [exact G|]. split.
  - intros ->. rewrite G. cbn [orb].
    destruct (jsstring_eqb (platform (env w)) (str "darwin")); reflexivity.
  - intros -> X M. unfold init, pushDownloads, existsSync, bind, ask, ret.
    rewrite X. cbn [orb negb]. rewrite M. cbn [orb negb app].
    now rewrite eventLoop_nil.
Qed.

(** A Mac with an M1, nothing downloaded yet. *)
Lemma init_fetches_iff_forced_or_missing_witness :
  networkIO (trace (snd (init closedController (Some false)
                              (worldOn (macHost (str "arm64" ++ [LF]))))))
  = networkIO (trace (worldOn (macHost (str "arm64" ++ [LF]))))
    ++ (if jsstring_eqb
             (platform (env (worldOn (macHost (str "arm64" ++ [LF])))))
             (str "darwin")
        then (if false
                 || negb (includes
                            (files (worldOn (macHost (str "arm64" ++ [LF]))))
                            (modelPath closedController))
              then [modelUrl closedController] else [])
             ++ (if false
                    || negb (includes
                               (files (worldOn (macHost (str "arm64" ++ [LF]))))
                               (executablePath closedController))
                 then [upstream_OSX_m1] else [])
        else (if false
                 || negb (includes
                            (files (worldOn (macHost (str "arm64" ++ [LF]))))
                            (executablePath closedController))
              then [upstream_OSX_m1] else [])
             ++ (if false
                    || negb (includes
                               (files (worldOn (macHost (str "arm64" ++ [LF]))))
                               (modelPath closedController))
                 then [modelUrl closedController] else []))
  /\ (false = true ->
      networkIO (trace (snd (init closedController (Some false)
                                  (worldOn (macHost (str "arm64" ++ [LF]))))))
      = networkIO (trace (worldOn (macHost (str "arm64" ++ [LF]))))
        ++ (if jsstring_eqb
                 (platform (env (worldOn (macHost (str "arm64" ++ [LF])))))
                 (str "darwin")
            then [modelUrl closedController; upstream_OSX_m1]
            else [upstream_OSX_m1; modelUrl closedController]))
  /\ (false = false ->
      includes (files (worldOn (macHost (str "arm64" ++ [LF]))))
               (executablePath closedController) = true ->
      includes (files (worldOn (macHost (str "arm64" ++ [LF]))))
               (modelPath closedController) = true ->
      init closedController (Some false)
           (worldOn (macHost (str "arm64" ++ [LF])))
      = (Fulfilled [], worldOn (macHost (str "arm64" ++ [LF])))).
Proof.
  apply (init_fetches_iff_forced_or_missing jsstring closedController false
           (worldOn (macHost (str "arm64" ++ [LF]))) upstream_OSX_m1).
  right. right. split; [reflexivity|].
  exists (str "arm64" ++ [LF]). split; reflexivity.
Defined.

(** C6, as stated, fails: on a platform the class has no binary for, a
    forced [init] sends one request, for the model weights; nothing is
    fetched for the executable, and [init] is rejected. *)
Lemma init_forced_fetches_no_executable :
  networkIO (trace (snd (init closedController (Some true)
                              (worldOn freebsdHost))))
  = [modelUrl closedController]
  /\ fst (init closedController (Some true) (worldOn freebsdHost))
     = Rejected (UnsupportedPlatform (str "freebsd"))
  /\ includes (files (snd (init closedController (Some true)
                                (worldOn freebsdHost))))
              (executablePath closedController) = false.
Proof. repeat split. Qed.

(** C3, on the code.  The promise of [downloadExecutable] does not depend
    on what [chmod] answers.  When the download has gone through, [chmod]
    has been asked for the bits [0o755], and they are set if it succeeds.
    On the sample host with a failing [chmod], the promise of
    [downloadExecutable] and that of [init] are fulfilled all the same; the
    error is thrown out of the callback and reaches no promise. *)
Theorem chmod_failure_escapes_the_promise :
  (forall (Value : Type) (this : GPT4All Value) (w : World)
          (f : jsstring -> option Error),
      fst (downloadExecutable this (setChmodError f w))
      = fst (downloadExecutable this w))
  /\ (forall (Value : Type) (this : GPT4All Value) (w : World),
         fst (downloadExecutable this w) = Fulfilled tt ->
         In (Chmod (executablePath this) 493)
            (trace (snd (downloadExecutable this w)))
         /\ (chmod_error (env w) (executablePath this) = None ->
             modes (snd (downloadExecutable this w))
             = (executablePath this, 493) :: modes w)
         /\ (forall err : Error,
                chmod_error (env w) (executablePath this) = Some err ->
                uncaught (snd (downloadExecutable this w))
                = uncaught w
                  ++ match mkdir_error (env w) with
                     | Some e => [e]
                     | None => []
                     end
                  ++ [err]))
  /\ fst (downloadExecutable closedController
            (setChmodError (fun _ => Some EPERM) freshWorld))
     = Fulfilled tt
  /\ uncaught (snd (downloadExecutable closedController
                      (setChmodError (fun _ => Some EPERM) freshWorld)))
     = [EPERM]
  /\ fst (init closedController (Some true)
            (setChmodError (fun _ => Some EPERM) freshWorld))
     = Fulfilled [tt; tt].
Proof.
  split; [|split; [|repeat split]].
  - intros Value this [[h p u a wr mk c cs] fl md tr un np] f.
    unfold setChmodError. unfold_world. split_oracle; reflexivity.
  - intros Value this [[h p u a wr mk c cs] fl md tr un np].
    unfold_world. split_oracle; intros H; try discriminate H;
      (split; [|split]);
      try (rewrite !in_app_iff; simpl; tauto);
      try (intros K; first [congruence | reflexivity]);
      try (intros err K; first [congruence | idtac]).
    all: injection K as <-; rewrite <- ?app_assoc; reflexivity.
Qed.

(* ================================================================== *)
(** * Further properties of the code *)

(** ** The end-of-turn pattern *)

Lemma re_tail_shape (s : jsstring) :
  re_tail s = true <-> exists post, s = LF :: GT :: post.
Proof.
  unfold re_tail. destruct s as [|c1 [|c2 s']].
  - split; [discriminate | intros [post H]; discriminate].
  - split; [discriminate | intros [post H]; discriminate].
  - assert (O : re_optSpace s' = true)
      by (destruct s' as [|c s'']; simpl; [reflexivity | apply orb_true_r]).
    rewrite O, andb_true_r, andb_true_iff, !N.eqb_eq. split.
    + intros [-> ->]. now exists s'.
    + intros [post [= -> -> _]]. split; reflexivity.
Qed.

Lemma re_star_shape (s : jsstring) :
  re_star s = true <->
  exists mid post,
    s = mid ++ LF :: GT :: post /\ forallb notLineTerminator mid = true.
Proof.
  induction s as [|c s IH].
  - simpl. split; [discriminate|].
    intros (mid & post & H & _). destruct mid; discriminate.
  - change (re_star (c :: s))
      with (re_tail (c :: s) || (negb (isLineTerminator c) && re_star s)).
    rewrite orb_true_iff, andb_true_iff, re_tail_shape, IH. split.
    + intros [[post H] | [Hc (mid & post & H & Hm)]].
      * exists [], post. split; [exact H | reflexivity].
      * exists (c :: mid), post. split; [now rewrite H|].
        simpl. unfold notLineTerminator at 1. now rewrite Hc, Hm.
    + intros (mid & post & H & Hm). destruct mid as [|m mid].
      * left. now exists post.
      * right. simpl in H. injection H as -> ->. simpl in Hm.
        apply andb_true_iff in Hm. destruct Hm as [Hc Hm].
        split; [exact Hc|]. now exists mid, post.
Qed.

Lemma re_body_shape (s : jsstring) :
  re_body s = true <->
  exists mid post,
    s = ESC :: mid ++ LF :: GT :: post
    /\ forallb notLineTerminator mid = true.
Proof.
  unfold re_body. destruct s as [|c s].
  - split; [discriminate | intros (mid & post & H & _); discriminate].
  - rewrite andb_true_iff, N.eqb_eq, re_star_shape. split.
    + intros [-> (mid & post & -> & Hm)]. now exists mid, post.
    + intros (mid & post & [= -> ->] & Hm). split; [reflexivity|].
      now exists mid, post.
Qed.

Lemma re_search_shape (s : jsstring) :
  forall lineStart : bool,
    re_search lineStart s = true <->
    exists pre mid post,
      s = pre ++ ESC :: mid ++ LF :: GT :: post
      /\ forallb notLineTerminator mid = true
      /\ ((pre = [] /\ lineStart = true)
          \/ exists pre' c, pre = pre' ++ [c] /\ isLineTerminator c = true).
Proof.
  induction s as [|c s IH]; intros b.
  - simpl. rewrite andb_false_r. split; [discriminate|].
    intros (pre & mid & post & H & _). destruct pre; discriminate.
  - change (re_search b (c :: s))
      with ((b && re_body (c :: s)) || re_search (isLineTerminator c) s).
    rewrite orb_true_iff, andb_true_iff, re_body_shape, IH. split.
    + intros [[Hb (mid & post & H & Hm)]
             | (pre & mid & post & H & Hm & Hp)].
      * exists [], mid, post. repeat split; auto.
      * exists (c :: pre), mid, post. split; [now rewrite H|].
        split; [exact Hm|]. right.
        destruct Hp as [[-> Hc] | (pre' & c' & -> & Hc')].
        -- now exists [], c.
        -- now exists (c :: pre'), c'.
    + intros (pre & mid & post & H & Hm & Hp).
      destruct Hp as [[-> Hb] | (pre' & c' & -> & Hc')].
      * left. split; [exact Hb|]. now exists mid, post.
      * right. destruct pre' as [|p pre'].
        -- simpl in H. injection H as -> ->.
           exists [], mid, post. repeat split; auto.
        -- simpl in H. injection H as -> ->.
           exists (pre' ++ [c']), mid, post. split; [reflexivity|].
           split; [exact Hm|]. right. now exists pre', c'.
Qed.

(** X1.  A chunk ends the turn exactly when it holds, at its start or right
    after a line terminator, the escape character, then characters none of
    which is a line terminator, then a line feed and the prompt marker;
    what comes before that line and after the marker is free. *)
Theorem endPattern_shape :
  forall text : jsstring,
    endPattern text = true <->
    exists pre mid post,
      text = pre ++ ESC :: mid ++ LF :: GT :: post
      /\ forallb notLineTerminator mid = true
      /\ (pre = []
          \/ exists pre' c, pre = pre' ++ [c] /\ isLineTerminator c = true).
Proof.
  intros text. unfold endPattern. rewrite re_search_shape. split.
  - intros (pre & mid & post & H & Hm & Hp). exists pre, mid, post.
    repeat split; try assumption. destruct Hp as [[-> _] | Hp]; auto.
  - intros (pre & mid & post & H & Hm & Hp). exists pre, mid, post.
    repeat split; try assumption. destruct Hp as [-> | Hp]; auto.
Qed.

(** ** Framing of a reply *)

(** While chunks that do not end the turn keep coming in time, the call
    stays as it is but for the accumulator and the timer. *)
Lemma trickle_state (dcs : list (N * jsstring)) :
  forall st : PromptState,
    listening st = true ->
    promise st = Pending ->
    (timeoutId st = None
     \/ timeoutId st = Some (mkTimeout (now st + 4000) true)) ->
    Forall trickles dcs ->
    listening (run (timed dcs) st) = true
    /\ promise (run (timed dcs) st) = Pending
    /\ response (run (timed dcs) st) = response st ++ List.concat (map snd dcs)
    /\ (timeoutId (run (timed dcs) st) = None
        \/ timeoutId (run (timed dcs) st)
           = Some (mkTimeout (now (run (timed dcs) st) + 4000) true))
    /\ (dcs <> [] -> timeoutId (run (timed dcs) st) <> None).
Proof.
  induction dcs as [|[d c] dcs IH]; intros st L P T F.
  - simpl. rewrite app_nil_r. repeat split; auto.
  - inversion F as [|x l [Hd Hc] F']; subst. simpl in Hd, Hc.
    change (run (timed ((d, c) :: dcs)) st)
      with (run (timed dcs) (step (step st (Elapse d)) (Data c))).
    assert (E : exists t,
               step st (Elapse d)
               = mkPrompt (stdout_of st) (now st + d) (response st) t
                          true Pending).
    { destruct T as [T | T].
      - rewrite (elapse_idle st d T), L, P. eauto.
      - rewrite (elapse_short st d _ T) by lia. rewrite L, P. eauto. }
    destruct E as [t E]. rewrite E.
    rewrite data_continues by (reflexivity || assumption).
    cbn [stdout_of now response promise].
    destruct (IH (mkPrompt (stdout_of st) (now st + d) (response st ++ c)
                           (Some (mkTimeout (now st + d + 4000) true))
                           true Pending))
      as (L' & P' & R' & T' & N'); auto.
    repeat split; auto.
    + rewrite R'. cbn [response map List.concat fst snd].
      now rewrite <- app_assoc.
    + intros _. destruct dcs as [|dc dcs].
      * simpl. discriminate.
      * apply N'. discriminate.
Qed.

Lemma trickle_from_start (pid : Pid) (dcs : list (N * jsstring)) :
  Forall trickles dcs ->
  listening (run (timed dcs) (promptStart pid)) = true
  /\ promise (run (timed dcs) (promptStart pid)) = Pending
  /\ response (run (timed dcs) (promptStart pid)) = List.concat (map snd dcs)
  /\ (timeoutId (run (timed dcs) (promptStart pid)) = None
      \/ timeoutId (run (timed dcs) (promptStart pid))
         = Some (mkTimeout (now (run (timed dcs) (promptStart pid)) + 4000)
                           true))
  /\ (dcs <> [] -> timeoutId (run (timed dcs) (promptStart pid)) <> None).
Proof.
  intros F. apply (trickle_state dcs (promptStart pid)); auto.
Qed.

Lemma run_app (evs1 evs2 : list Event) (st : PromptState) :
  run (evs1 ++ evs2) st = run evs2 (run evs1 st).
Proof. unfold run. apply fold_left_app. Qed.

(** X2.  Whatever the chunks that do not end the turn, as long as each
    comes less than 4000 ms after the one before, the end-of-turn chunk
    resolves the call with all of them put together, in order, less one
    trailing prompt marker; with no chunk before it the reply is empty. *)
Theorem reply_is_the_chunks_before_the_end :
  forall (pid : Pid) (dcs : list (N * jsstring)) (d : N) (eot : jsstring)
         (later : list Event),
    Forall trickles dcs ->
    d < 4000 ->
    endPattern eot = true ->
    promise (run (timed dcs ++ [Elapse d; Data eot] ++ later)
                 (promptStart pid))
    = Fulfilled (dropPromptMarker (List.concat (map snd dcs))).
Proof.
  intros pid dcs d eot later F Hd He.
  destruct (trickle_from_start pid dcs F) as (L & P & R & T & _).
  rewrite !run_app.
  change (run [Elapse d; Data eot] (run (timed dcs) (promptStart pid)))
    with (step (step (run (timed dcs) (promptStart pid)) (Elapse d))
               (Data eot)).
  set (st := run (timed dcs) (promptStart pid)) in *.
  assert (E : exists t,
             step st (Elapse d)
             = mkPrompt (stdout_of st) (now st + d) (response st) t
                        true Pending).
  { destruct T as [T | T].
    - rewrite (elapse_idle st d T), L, P. eauto.
    - rewrite (elapse_short st d _ T) by lia. rewrite L, P. eauto. }
  destruct E as [t E]. rewrite E.
  rewrite data_ends_turn by (reflexivity || assumption).
  rewrite settled_run; cbn [promise response]; [|discriminate].
  now rewrite R.
Qed.

Lemma reply_is_the_chunks_before_the_end_witness :
  promise (run (timed [(10, str "The answer"); (3999, str " is 42.")]
                ++ [Elapse 0; Data (ESC :: str "[0m" ++ [LF] ++ str "> ")]
                ++ [Data (str "late")])
               (promptStart 7%nat))
  = Fulfilled (dropPromptMarker
                 (List.concat (map snd [(10, str "The answer");
                                   (3999, str " is 42.")]))).
Proof.
  apply (reply_is_the_chunks_before_the_end 7%nat).
  - repeat constructor.
  - reflexivity.
  - reflexivity.
Defined.

(** X3.  After one or more chunks that do not end the turn, each in time,
    a silence resolves the call exactly when it has lasted 4000 ms, with
    all the chunks put together less one trailing prompt marker. *)
Theorem reply_after_silence :
  forall (pid : Pid) (dcs : list (N * jsstring)) (ds : list N),
    Forall trickles dcs ->
    dcs <> [] ->
    promise (run (timed dcs ++ map Elapse ds) (promptStart pid))
    = if total ds <? 4000 then Pending
      else Fulfilled (dropPromptMarker (List.concat (map snd dcs))).
Proof.
  intros pid dcs ds F NE.
  destruct (trickle_from_start pid dcs F) as (L & P & R & T & N').
  rewrite run_app.
  set (st := run (timed dcs) (promptStart pid)) in *.
  destruct T as [T | T]; [exfalso; now apply (N' NE)|].
  rewrite (silence_after_arming ds st (now st + 4000) T P) by lia.
  rewrite R.
  destruct (N.ltb_spec (total ds) 4000) as [Hlt | Hge].
  - assert (E : (now st + total ds <? now st + 4000) = true)
      by (apply N.ltb_lt; lia).
    now rewrite E.
  - assert (E : (now st + total ds <? now st + 4000) = false)
      by (apply N.ltb_ge; lia).
    now rewrite E.
Qed.

Lemma reply_after_silence_witness :
  promise (run (timed [(10, str "The answer"); (3999, str " is 42>")]
                ++ map Elapse [1500; 2500])
               (promptStart 7%nat))
  = if total [1500; 2500] <? 4000 then Pending
    else Fulfilled (dropPromptMarker
                      (List.concat (map snd [(10, str "The answer");
                                        (3999, str " is 42>")]))).
Proof.
  apply (reply_after_silence 7%nat).
  - repeat constructor.
  - discriminate.
Defined.

(** X4.  A call has no deadline of its own: as long as chunks that do not
    end the turn keep coming less than 4000 ms apart, however many and for
    however long, the promise stays pending and both listeners stay
    attached. *)
Theorem trickle_keeps_pending :
  forall (pid : Pid) (dcs : list (N * jsstring)),
    Forall trickles dcs ->
    promise (run (timed dcs) (promptStart pid)) = Pending
    /\ listening (run (timed dcs) (promptStart pid)) = true
    /\ response (run (timed dcs) (promptStart pid)) = List.concat (map snd dcs).
Proof.
  intros pid dcs F.
  destruct (trickle_from_start pid dcs F) as (L & P & R & _). auto.
Qed.

Lemma trickle_keeps_pending_witness :
  promise (run (timed [(3999, str "a"); (3999, str "b"); (3999, str "c")])
               (promptStart 7%nat)) = Pending
  /\ listening (run (timed [(3999, str "a"); (3999, str "b"); (3999, str "c")])
                    (promptStart 7%nat)) = true
  /\ response (run (timed [(3999, str "a"); (3999, str "b"); (3999, str "c")])
                   (promptStart 7%nat))
     = List.concat (map snd [(3999, str "a"); (3999, str "b"); (3999, str "c")]).
Proof.
  apply (trickle_keeps_pending 7%nat). repeat constructor.
Defined.

(** X5.  The timer is armed by the first chunk only: while the child prints
    nothing, the call stays pending however much time passes. *)
Theorem silent_child_never_settles :
  forall (pid : Pid) (ds : list N),
    promise (run (map Elapse ds) (promptStart pid)) = Pending
    /\ listening (run (map Elapse ds) (promptStart pid)) = true.
Proof.
  intros pid ds.
  assert (G : forall st,
             timeoutId st = None ->
             promise (run (map Elapse ds) st) = promise st
             /\ listening (run (map Elapse ds) st) = listening st).
  { induction ds as [|d ds IH]; intros st T; [split; reflexivity|].
    change (run (map Elapse (d :: ds)) st)
      with (run (map Elapse ds) (step st (Elapse d))).
    rewrite (elapse_idle st d T).
    destruct (IH (mkPrompt (stdout_of st) (now st + d) (response st) None
                           (listening st) (promise st)) eq_refl) as [A B].
    split; assumption. }
  apply (G (promptStart pid)). reflexivity.
Qed.

(** X6.  An error of the output stream while the call is waiting rejects it
    with that error and detaches both listeners; the timer is left armed,
    but when it runs, as whatever else comes later, it changes nothing. *)
Theorem stream_error_rejects :
  forall (pid : Pid) (evs later : list Event) (err : Error),
    listening (run evs (promptStart pid)) = true ->
    promise (run (evs ++ StreamError err :: later) (promptStart pid))
    = Rejected err
    /\ listening (step (run evs (promptStart pid)) (StreamError err)) = false
    /\ timeoutId (step (run evs (promptStart pid)) (StreamError err))
       = timeoutId (run evs (promptStart pid)).
Proof.
  intros pid evs later err L.
  pose proof (attachedPending_run evs _ (attachedPending_start pid) L) as P.
  rewrite run_app.
  change (run (StreamError err :: later) (run evs (promptStart pid)))
    with (run later (step (run evs (promptStart pid)) (StreamError err))).
  cbn [step]. rewrite L. unfold onStdoutError. cbn [listening timeoutId].
  rewrite settled_run; cbn [promise]; rewrite P; simpl;
    [auto | discriminate].
Qed.

Lemma stream_error_rejects_witness :
  promise (run ([Data (str "partial")]
                ++ StreamError EPERM :: [Elapse 5000; Data (str "more")])
               (promptStart 7%nat))
  = Rejected EPERM
  /\ listening (step (run [Data (str "partial")] (promptStart 7%nat))
                     (StreamError EPERM)) = false
  /\ timeoutId (step (run [Data (str "partial")] (promptStart 7%nat))
                     (StreamError EPERM))
     = timeoutId (run [Data (str "partial")] (promptStart 7%nat)).
Proof.
  apply (stream_error_rejects 7%nat). reflexivity.
Defined.

(** X7.  [terminateAndResolve] removes at most one character from the
    reply, and only a prompt marker at its very end: a reply that ends
    with two markers keeps one. *)
Theorem dropPromptMarker_one :
  forall s : jsstring,
    (endsWithGT s = false /\ dropPromptMarker s = s)
    \/ (endsWithGT s = true /\ s = dropPromptMarker s ++ [GT]).
Proof.
  intros s. destruct s as [|c s] using rev_ind.
  - left. split; reflexivity.
  - unfold dropPromptMarker, endsWithGT, sliceInit.
    rewrite rev_app_distr. simpl.
    destruct (N.eqb_spec c GT) as [-> | Hne].
    + right. split; [reflexivity|]. now rewrite removelast_last.
    + left. split; reflexivity.
Qed.

(** ** The session *)

Lemma includesChar_In (c : N) (s : jsstring) :
  includesChar c s = true <-> In c s.
Proof.
  unfold includesChar. rewrite existsb_exists. split.
  - intros (x & Hx & E). apply N.eqb_eq in E. now subst.
  - intros H. exists c. split; [assumption | apply N.eqb_refl].
Qed.

Lemma openReady_fulfilled (chunks : list jsstring) :
  openReady chunks (Fulfilled tt) = Fulfilled tt.
Proof.
  unfold openReady. induction chunks as [|c chunks IH]; [reflexivity|].
  simpl. unfold readyListener at 2. simpl.
  destruct (includesChar GT c); exact IH.
Qed.

(** X8.  [open] is fulfilled as soon as one chunk of the child's output
    holds the prompt marker, wherever in the chunk, and by nothing else: as
    long as no chunk holds one, the promise stays pending. *)
Theorem open_ready_iff_marker :
  forall chunks : list jsstring,
    (openReady chunks Pending = Fulfilled tt
     <-> exists chunk, In chunk chunks /\ In GT chunk)
    /\ (openReady chunks Pending = Pending
        <-> forall chunk, In chunk chunks -> ~ In GT chunk).
Proof.
  induction chunks as [|c chunks [IH1 IH2]].
  - split; split; try discriminate; try reflexivity.
    + intros (chunk & [] & _).
    + intros _ chunk [].
  - change (openReady (c :: chunks) Pending)
      with (openReady chunks (readyListener c Pending)).
    unfold readyListener. destruct (includesChar GT c) eqn:E.
    + apply includesChar_In in E. simpl. rewrite openReady_fulfilled.
      split; split; try discriminate; try reflexivity.
      * intros _. exists c. split; [now left | exact E].
      * intros H. exfalso. apply (H c); [now left | exact E].
    + assert (NE : ~ In GT c).
      { intros H. apply includesChar_In in H. congruence. }
      split.
      * rewrite IH1. split.
        -- intros (chunk & Hc & Hg). exists chunk. split; [now right | exact Hg].
        -- intros (chunk & [<- | Hc] & Hg); [contradiction|]. now exists chunk.
      * rewrite IH2. split.
        -- intros H chunk [<- | Hc]; [exact NE | now apply H].
        -- intros H chunk Hc. apply H. now right.
Qed.

(** X9.  [close] on a controller with no session does nothing at all, and
    [close] twice is [close] once: the process is killed once. *)
Theorem close_idempotent :
  forall (Value : Type) (this : GPT4All Value) (w : World),
    (bot this = None -> close this w = (this, w))
    /\ close (fst (close this w)) (snd (close this w)) = close this w
    /\ bot (fst (close this w)) = None
    /\ live (trace (snd (close this w)))
       = filter (fun p => negb (existsb (Nat.eqb p) (handles (bot this))))
                (live (trace w)).
Proof.
  intros Value this w. unfold close. destruct (bot this) as [pid|] eqn:B.
  - simpl. repeat split; try discriminate.
    rewrite live_snoc. simpl. apply filter_ext. intros p.
    now rewrite orb_false_r.
  - simpl. rewrite B. repeat split.
    induction (live (trace w)) as [|p l IH]; [reflexivity|].
    simpl. now rewrite <- IH.
Qed.

(** X10.  [prompt] follows the handle: right after [open] it writes to the
    process that [open] has just spawned, and right after [close] it throws
    [NotInitialized] and writes nothing. *)
Theorem prompt_follows_the_handle :
  forall (Value : Type) (toString : Value -> jsstring) (this : GPT4All Value)
         (w : World) (text : jsstring),
    (exists (pid : Pid) (args : list jsstring),
        trace (snd (open toString this w))
        = trace (snd (close this w)) ++ [Spawn pid (executablePath this) args]
        /\ prompt (fst (fst (open toString this w))) text
                  (snd (open toString this w))
           = (Normal (promptStart pid),
              snd (emit (StdinWrite pid (text ++ [LF]))
                        (snd (open toString this w)))))
    /\ prompt (fst (close this w)) text (snd (close this w))
       = (Throw NotInitialized, snd (close this w)).
Proof.
  intros Value toString this w text. split.
  - unfold open, close, prompt, spawnArgs.
    destruct (bot this) as [old|]; simpl; rewrite pushOptions_flat_map;
      simpl; do 2 eexists; split; reflexivity.
  - unfold close, prompt. destruct (bot this) as [old|] eqn:B; simpl.
    + reflexivity.
    + rewrite B. reflexivity.
Qed.

(** X11.  A controller fresh from the constructor has no session: [prompt]
    throws [NotInitialized] without writing, [close] does nothing, and the
    first [open] spawns without killing anything. *)
Theorem fresh_controller_is_closed :
  forall (Value : Type) (toString : Value -> jsstring)
         (model : option jsstring) (forceDownload : option bool)
         (decoderConfig : option (DecoderConfig Value))
         (this : GPT4All Value) (w w' : World) (text : jsstring),
    constructor model forceDownload decoderConfig w = (Normal this, w') ->
    bot this = None
    /\ prompt this text w' = (Throw NotInitialized, w')
    /\ close this w' = (this, w')
    /\ trace (snd (open toString this w'))
       = trace w ++ [Spawn (next_pid w) (executablePath this)
                           (tl (spawnArgs toString this))].
Proof.
  intros Value toString model fd cfg this w w' text.
  unfold constructor.
  destruct (negb (includes availableModels _)); [discriminate|].
  unfold bind, ask, ret. intros [= <- <-].
  unfold prompt, close, open, spawnArgs. simpl.
  rewrite pushOptions_flat_map. repeat split.
Qed.

Lemma fresh_controller_is_closed_witness :
  bot closedController = None
  /\ prompt closedController (str "hi") freshWorld
     = (Throw NotInitialized, freshWorld)
  /\ close closedController freshWorld = (closedController, freshWorld)
  /\ trace (snd (open stringToString closedController freshWorld))
     = trace freshWorld
       ++ [Spawn (next_pid freshWorld) (executablePath closedController)
                 (tl (spawnArgs stringToString closedController))].
Proof.
  apply (fresh_controller_is_closed jsstring stringToString None (Some true)
           (Some [(str "threads", str "4"); (str "temp", str "0.1")])
           closedController freshWorld freshWorld (str "hi")).
  reflexivity.
Defined.

(** X12.  The constructor puts both artifacts under [.nomic] in the home
    directory, the model under its name; the two paths differ whatever the
    home directory, so neither download writes over the other. *)
Theorem artifact_paths_differ :
  forall (Value : Type) (name : option jsstring)
         (forceDownload : option bool)
         (decoderConfig : option (DecoderConfig Value))
         (this : GPT4All Value) (w w' : World),
    constructor name forceDownload decoderConfig w = (Normal this, w') ->
    In (model this) availableModels
    /\ executablePath this = homedir (env w) ++ str "/.nomic/gpt4all"
    /\ modelPath this
       = homedir (env w) ++ str "/.nomic/" ++ model this ++ str ".bin"
    /\ executablePath this <> modelPath this.
Proof.
  intros Value name fd cfg this w w'. unfold constructor. cbv zeta.
  generalize (match name with
              | Some m => m
              | None => str "gpt4all-lora-quantized"
              end).
  intros m. destruct (includes availableModels m) eqn:I; [|discriminate].
  unfold bind, ask, ret. simpl. intros [= <- <-]. simpl.
  apply includes_In in I. repeat split; try assumption.
  intros H. apply app_inv_head in H.
  destruct I as [<- | [<- | []]]; vm_compute in H; discriminate.
Qed.

Lemma artifact_paths_differ_witness :
  In (model closedController) availableModels
  /\ executablePath closedController
     = homedir (env freshWorld) ++ str "/.nomic/gpt4all"
  /\ modelPath closedController
     = homedir (env freshWorld) ++ str "/.nomic/"
       ++ model closedController ++ str ".bin"
  /\ executablePath closedController <> modelPath closedController.
Proof.
  apply (artifact_paths_differ jsstring None None
           (Some [(str "threads", str "4"); (str "temp", str "0.1")])
           closedController freshWorld freshWorld).
  reflexivity.
Defined.

(** ** Provisioning, further *)

Lemma jsstring_eqb_neq (a b : jsstring) : a <> b -> jsstring_eqb a b = false.
Proof.
  intros H. destruct (jsstring_eqb a b) eqn:E; [|reflexivity].
  apply jsstring_eqb_eq in E. contradiction.
Qed.

Lemma init_unfold {Value : Type} (this : GPT4All Value)
    (forceDownload : bool) (w : World) :
  init this (Some forceDownload) w
  = (Promise_all
       (map promiseOf
            (fst (eventLoop this (completions (env w))
                            (fst (pushDownloads this forceDownload w))
                            (snd (pushDownloads this forceDownload w))))),
     snd (eventLoop this (completions (env w))
                    (fst (pushDownloads this forceDownload w))
                    (snd (pushDownloads this forceDownload w)))).
Proof.
  unfold init, bind, ask.
  destruct (pushDownloads_world this forceDownload w) as (E & _ & _).
  destruct (pushDownloads this forceDownload w) as [ds w0]. cbn [fst snd] in *.
  rewrite E. destruct (eventLoop this (completions (env w)) ds w0).
  reflexivity.
Qed.

(** A download that is settled when it is pushed stays as it is. *)
Lemma eventLoop_settled_head {Value : Type} (this : GPT4All Value)
    (completed : list Artifact) (a : Artifact) (p : Promise unit) :
  forall (ds : Downloads) (w : World),
    eventLoop this completed ((a, Settled p) :: ds) w
    = ((a, Settled p) :: fst (eventLoop this completed ds w),
       snd (eventLoop this completed ds w)).
Proof.
  induction completed as [|c rest IH]; intros ds w.
  - cbn [eventLoop forEach fst snd]. unfold finish, resume, bind, ret.
    destruct (forEach _ ds w). reflexivity.
  - cbn [eventLoop forEach fst snd].
    assert (R : (if Artifact_eqb a c then resume this a (Settled p)
                 else ret (Settled p)) = ret (Settled p))
      by (destruct (Artifact_eqb a c); reflexivity).
    rewrite R. unfold bind, ret.
    destruct (forEach _ ds w) as [ds' w1]. apply IH.
Qed.

(** X13.  On a platform that is none of [darwin], [linux] and [win32],
    [downloadExecutable] is rejected with [UnsupportedPlatform] before any
    effect; a forced [init] is rejected with that error, and the model
    weights are requested all the same. *)
Theorem unsupported_platform_rejects :
  forall (Value : Type) (this : GPT4All Value) (w : World),
    platform (env w) <> str "darwin" ->
    platform (env w) <> str "linux" ->
    platform (env w) <> str "win32" ->
    downloadExecutable this w
    = (Rejected (UnsupportedPlatform (platform (env w))), w)
    /\ fst (init this (Some true) w)
       = Rejected (UnsupportedPlatform (platform (env w)))
    /\ networkIO (trace (snd (init this (Some true) w)))
       = networkIO (trace w) ++ [modelUrl this].
Proof.
  intros Value this w D L W.
  apply jsstring_eqb_neq in D, L, W.
  assert (X : downloadExecutable this w
              = (Rejected (UnsupportedPlatform (platform (env w))), w)).
  { unfold downloadExecutable, await, upstream, bind, ask, ret.
    now rewrite D, L, W. }
  assert (P : pushDownloads this true w
              = ([(Executable,
                   Settled (Rejected (UnsupportedPlatform (platform (env w)))));
                  (ModelWeights,
                   AwaitFile (AwaitResponse (modelUrl this) (modelPath this)))],
                 snd (emit (HttpGet (modelUrl this)) w))).
  { unfold pushDownloads, existsSync, start, startFile, bind, ask, ret.
    cbn [orb]. now rewrite D, L, W. }
  split; [exact X|]. split.
  - rewrite init_unfold, P. cbn [fst snd].
    rewrite eventLoop_settled_head. reflexivity.
  - rewrite init_requests, P. cbn [fst snd emit trace].
    rewrite networkIO_snoc. unfold owedAll. cbn [flat_map owed].
    now rewrite !app_nil_r.
Qed.

Lemma unsupported_platform_rejects_witness :
  downloadExecutable closedController (worldOn freebsdHost)
  = (Rejected (UnsupportedPlatform (platform (env (worldOn freebsdHost)))),
     worldOn freebsdHost)
  /\ fst (init closedController (Some true) (worldOn freebsdHost))
     = Rejected (UnsupportedPlatform (platform (env (worldOn freebsdHost))))
  /\ networkIO (trace (snd (init closedController (Some true)
                                 (worldOn freebsdHost))))
     = networkIO (trace (worldOn freebsdHost)) ++ [modelUrl closedController].
Proof.
  apply (unsupported_platform_rejects jsstring closedController
           (worldOn freebsdHost));
    vm_compute; discriminate.
Defined.

Lemma chmodRequests_snoc (tr : list Effect) (e : Effect) :
  chmodRequests (tr ++ [e]) =
  chmodRequests tr
  ++ match e with Chmod path mode => [(path, mode)] | _ => [] end.
Proof.
  unfold chmodRequests. rewrite flat_map_app. simpl. now rewrite app_nil_r.
Qed.

(** X14.  [downloadExecutable] asks [chmod] for the executable, with the
    bits [0o755], exactly when its promise is fulfilled: after a failed
    request or a failed write nothing is made executable; [downloadModel]
    never asks [chmod] for anything. *)
Theorem chmod_iff_downloaded :
  forall (Value : Type) (this : GPT4All Value) (w : World),
    chmodRequests (trace (snd (downloadExecutable this w)))
    = chmodRequests (trace w)
      ++ match fst (downloadExecutable this w) with
         | Fulfilled _ => [(executablePath this, 493)]
         | _ => []
         end
    /\ chmodRequests (trace (snd (downloadModel this w)))
       = chmodRequests (trace w).
Proof.
  intros Value this [[h p u a wr mk c cs] fl md tr un np]. split.
  - unfold_world. split_oracle;
      rewrite ?chmodRequests_snoc, ?app_nil_r; reflexivity.
  - unfold_world. split_oracle;
      rewrite ?chmodRequests_snoc, ?app_nil_r; reflexivity.
Qed.

Lemma jsstring_eqb_refl (a : jsstring) : jsstring_eqb a a = true.
Proof. now apply jsstring_eqb_eq. Qed.

Lemma includes_added (fs : list jsstring) (d p : jsstring) :
  includes fs p = true ->
  includes (if includes fs d then fs else d :: fs) p = true.
Proof.
  intros H. destruct (includes fs d); [exact H|].
  unfold includes in *. simpl. rewrite H. apply orb_true_r.
Qed.

Lemma includes_new (fs : list jsstring) (d : jsstring) :
  includes (if includes fs d then fs else d :: fs) d = true.
Proof.
  destruct (includes fs d) eqn:E; [exact E|].
  unfold includes. simpl. now rewrite jsstring_eqb_refl.
Qed.

Ltac split_host :=
  repeat match goal with
         | |- context [match ?x with _ => _ end] =>
             lazymatch x with
             | context [match _ with _ => _ end] => fail
             | includes _ _ => fail
             | _ => destruct x eqn:?
             end;
             cbn [env files modes trace uncaught next_pid fst snd homedir
                  platform uname_m axios_get writer_error mkdir_error
                  chmod_error completions]
         end.

Lemma keeps_refl (w : World) : keeps w w.
Proof. intros p H. exact H. Qed.

Lemma keeps_trans (w1 w2 w3 : World) :
  keeps w1 w2 -> keeps w2 w3 -> keeps w1 w3.
Proof. intros A B p H. apply B, A, H. Qed.

(** A step of a download removes no file. *)
Lemma resume_keeps {Value : Type} (this : GPT4All Value) (a : Artifact)
    (s : Stage) (w : World) :
  keeps w (snd (resume this a s w)).
Proof.
  destruct w as [[h pf u ax wr mk c cs] fl md tr un np].
  unfold keeps. cbn [files].
  destruct a, s as [|[url dest|dest|[|[]|e]]|q]; unfold_stages; split_host;
    intros p H; try exact H; now apply includes_added.
Qed.

Lemma landed_keeps {Value : Type} (this : GPT4All Value) (w w' : World)
    (d : Artifact * Stage) :
  landed this w d -> keeps w w' -> landed this w' d.
Proof.
  unfold landed. intros L K.
  destruct (snd d) as [|[url dest|dest|[|[]|e]]|[|[]|e]]; auto.
  destruct L as [L1 L2]. split; auto.
Qed.

(** A step of a download keeps it on the path of its artifact, and the file
    is there once the write has begun. *)
Lemma resume_landed {Value : Type} (this : GPT4All Value) (a : Artifact)
    (s : Stage) (w : World) :
  landed this w (a, s) ->
  landed this (snd (resume this a s w)) (a, fst (resume this a s w)).
Proof.
  destruct w as [[h pf u ax wr mk c cs] fl md tr un np].
  unfold landed. cbn [fst snd files].
  destruct a, s as [|[url dest|dest|[|[]|e]]|[|[]|e]]; unfold_stages;
    split_host; cbn [artifactPath]; intros L;
    try exact I; try exact L; try reflexivity;
    try match goal with
        | L : _ /\ _ |- _ => destruct L as [L1 L2]; subst; exact L2
        end;
    try (subst; split; [reflexivity | apply includes_new]).
Qed.

Lemma finish_keeps {Value : Type} (this : GPT4All Value) (a : Artifact)
    (s : Stage) (w : World) :
  keeps w (snd (finish this a s w)).
Proof.
  unfold finish, bind.
  pose proof (resume_keeps this a s w) as K1.
  destruct (resume this a s w) as [s1 w1]. cbn [snd] in K1.
  pose proof (resume_keeps this a s1 w1) as K2.
  destruct (resume this a s1 w1) as [s2 w2]. cbn [snd] in K2.
  pose proof (resume_keeps this a s2 w2) as K3.
  eapply keeps_trans; [exact K1|]. eapply keeps_trans; [exact K2|exact K3].
Qed.

Lemma finish_landed {Value : Type} (this : GPT4All Value) (a : Artifact)
    (s : Stage) (w : World) :
  landed this w (a, s) ->
  landed this (snd (finish this a s w)) (a, fst (finish this a s w)).
Proof.
  unfold finish, bind. intros L.
  pose proof (resume_landed this a s w L) as L1.
  destruct (resume this a s w) as [s1 w1]. cbn [fst snd] in L1.
  pose proof (resume_landed this a s1 w1 L1) as L2.
  destruct (resume this a s1 w1) as [s2 w2]. cbn [fst snd] in L2.
  exact (resume_landed this a s2 w2 L2).
Qed.

(** Each download of the array in turn, by steps that keep the files and
    keep a download on its path. *)
Lemma forEach_landed {Value : Type} (this : GPT4All Value)
    (f : Artifact -> Stage -> M Stage) :
  (forall b s w, keeps w (snd (f b s w))) ->
  (forall b s w, landed this w (b, s) ->
                 landed this (snd (f b s w)) (b, fst (f b s w))) ->
  forall (ds : Downloads) (w : World),
    Forall (landed this w) ds ->
    keeps w (snd (forEach f ds w))
    /\ Forall (landed this (snd (forEach f ds w))) (fst (forEach f ds w))
    /\ map fst (fst (forEach f ds w)) = map fst ds.
Proof.
  intros FK FL. induction ds as [|[b s] ds IH]; intros w H.
  - simpl. split; [apply keeps_refl|]. split; [constructor|reflexivity].
  - inversion H as [|x l Hd Hr]; subst.
    cbn [forEach fst snd]. unfold bind.
    pose proof (FK b s w) as K1. pose proof (FL b s w Hd) as L1.
    destruct (f b s w) as [s1 w1]. cbn [fst snd] in *.
    assert (Hr1 : Forall (landed this w1) ds).
    { eapply Forall_impl; [|exact Hr]. intros d Ld.
      now apply (landed_keeps this w w1). }
    destruct (IH w1 Hr1) as (K2 & L2 & M2).
    destruct (forEach f ds w1) as [ds' w2]. cbn [fst snd ret] in *.
    split; [eapply keeps_trans; eassumption|]. split.
    + constructor; [|exact L2]. now apply (landed_keeps this w1 w2).
    + cbn [map fst]. now rewrite M2.
Qed.

Lemma eventLoop_landed {Value : Type} (this : GPT4All Value)
    (completed : list Artifact) :
  forall (ds : Downloads) (w : World),
    Forall (landed this w) ds ->
    keeps w (snd (eventLoop this completed ds w))
    /\ Forall (landed this (snd (eventLoop this completed ds w)))
              (fst (eventLoop this completed ds w))
    /\ map fst (fst (eventLoop this completed ds w)) = map fst ds.
Proof.
  induction completed as [|a rest IH]; intros ds w H.
  - cbn [eventLoop]. apply forEach_landed; auto.
    + apply finish_keeps.
    + apply finish_landed.
  - cbn [eventLoop]. unfold bind.
    destruct (forEach_landed this
                (fun b s => if Artifact_eqb b a then resume this b s
                            else ret s)) with (ds := ds) (w := w)
      as (K1 & L1 & M1); auto.
    + intros b s w0. destruct (Artifact_eqb b a);
        [apply resume_keeps | apply keeps_refl].
    + intros b s w0 L. destruct (Artifact_eqb b a);
        [now apply resume_landed | exact L].
    + destruct (forEach _ ds w) as [ds' w1]. cbn [fst snd] in *.
      destruct (IH ds' w1 L1) as (K2 & L2 & M2).
      split; [eapply keeps_trans; eassumption|]. split; [exact L2|].
      now rewrite M2.
Qed.

Lemma pushDownloads_landed {Value : Type} (this : GPT4All Value)
    (forceDownload : bool) (w : World) :
  Forall (landed this (snd (pushDownloads this forceDownload w)))
         (fst (pushDownloads this forceDownload w)).
Proof.
  destruct w as [[h p u ax wr mk c cs] fl md tr un np].
  unfold pushDownloads, existsSync. unfold_stages.
  split_oracle; repeat constructor.
Qed.

Lemma Promise_all_fulfilled {A : Type} (p : Promise A) (ps : list (Promise A))
    (l : list A) :
  Promise_all (p :: ps) = Fulfilled l ->
  exists a l', p = Fulfilled a /\ Promise_all ps = Fulfilled l'
               /\ l = a :: l'.
Proof.
  simpl. destruct p as [|a|e]; destruct (Promise_all ps) as [|l'|e'];
    try discriminate.
  intros [= <-]. now exists a, l'.
Qed.


Lemma Promise_all_settled (ds : Downloads) :
  forall l : list unit,
    Promise_all (map promiseOf ds) = Fulfilled l ->
    (forall d, In d ds -> exists u, snd d = Settled (Fulfilled u))
    /\ List.length l = List.length ds.
Proof.
  induction ds as [|d ds IH]; intros l H.
  - simpl in H. injection H as <-. split; [intros d []|reflexivity].
  - cbn [map] in H. apply Promise_all_fulfilled in H.
    destruct H as (u & l' & Hd & Hl & ->).
    destruct (IH l' Hl) as [IH1 IH2]. split.
    + intros d' [<- | Hin]; [|now apply IH1].
      unfold promiseOf in Hd. destruct (snd d) as [| |q]; try discriminate.
      exists u. now rewrite Hd.
    + simpl. now rewrite IH2.
Qed.

(** With both files there and no [forceDownload], [init] has nothing to
    do. *)
Lemma init_nothing_to_do {Value : Type} (this : GPT4All Value) (w : World) :
  includes (files w) (executablePath this) = true ->
  includes (files w) (modelPath this) = true ->
  init this (Some false) w = (Fulfilled [], w).
Proof.
  intros X M. unfold init, pushDownloads, existsSync, bind, ask, ret.
  rewrite X. cbn [orb negb]. rewrite M. cbn [orb negb app].
  now rewrite eventLoop_nil.
Qed.

(** X15.  Once [init] has been fulfilled both artifacts exist, so calling
    [init] again without [forceDownload] is fulfilled at once and does
    nothing; and [init] is fulfilled with one value per download it
    pushed. *)
Theorem init_again_does_nothing :
  forall (Value : Type) (this : GPT4All Value) (forceDownload : bool)
         (w : World) (l : list unit),
    fst (init this (Some forceDownload) w) = Fulfilled l ->
    init this (Some false) (snd (init this (Some forceDownload) w))
    = (Fulfilled [], snd (init this (Some forceDownload) w))
    /\ List.length l
       = List.length (fst (downloadPromises this forceDownload w)).
Proof.
  intros Value this f w l. rewrite init_unfold. cbn [fst snd]. intros H.
  destruct (pushDownloads_world this f w) as (_ & F0 & C0).
  pose proof (pushDownloads_landed this f w) as L0.
  destruct (pushDownloads this f w) as [ds0 w0]. cbn [fst snd] in *.
  destruct (eventLoop_landed this (completions (env w)) ds0 w0 L0)
    as (K & L & M).
  destruct (eventLoop this (completions (env w)) ds0 w0) as [ds' w'].
  cbn [fst snd] in *.
  destruct (Promise_all_settled ds' l H) as [S N].
  assert (E : forall a, In a (fst (downloadPromises this f w)) ->
                        includes (files w') (artifactPath this a) = true).
  { intros a Ha. rewrite <- C0, <- M in Ha. apply in_map_iff in Ha.
    destruct Ha as (d & <- & Hd).
    destruct (S d Hd) as [u Hs].
    rewrite Forall_forall in L. specialize (L d Hd).
    unfold landed in L. now rewrite Hs in L. }
  assert (KW : forall p, includes (files w) p = true ->
                         includes (files w') p = true).
  { intros p Hp. apply K. now rewrite F0. }
  split.
  - apply init_nothing_to_do.
    + destruct (f || negb (includes (files w) (executablePath this))) eqn:B.
      * apply (E Executable). unfold downloadPromises, existsSync, bind, ret.
        cbn [fst]. rewrite B. now left.
      * apply orb_false_iff in B. destruct B as [_ B].
        apply negb_false_iff in B. now apply KW.
    + destruct (f || negb (includes (files w) (modelPath this))) eqn:B.
      * apply (E ModelWeights). unfold downloadPromises, existsSync, bind, ret.
        cbn [fst]. rewrite B. apply in_or_app. right. now left.
      * apply orb_false_iff in B. destruct B as [_ B].
        apply negb_false_iff in B. now apply KW.
  - rewrite N, <- C0, <- M. now rewrite length_map.
Qed.

Lemma init_again_does_nothing_witness :
  init closedController (Some false)
       (snd (init closedController (Some true) freshWorld))
  = (Fulfilled [], snd (init closedController (Some true) freshWorld))
  /\ List.length [tt; tt]
     = List.length (fst (downloadPromises closedController true freshWorld)).
Proof.
  apply (init_again_does_nothing jsstring closedController true freshWorld).
  reflexivity.
Defined.

Lemma trimStart_blanks (ws s : jsstring) :
  forallb isWhiteSpace ws = true -> trimStart (ws ++ s) = trimStart s.
Proof.
  induction ws as [|c ws IH]; intros H; [reflexivity|].
  simpl in H. apply andb_true_iff in H. destruct H as [Hc Hw].
  simpl. rewrite Hc. now apply IH.
Qed.

Lemma forallb_rev {A : Type} (f : A -> bool) (l : list A) :
  forallb f l = true -> forallb f (rev l) = true.
Proof.
  rewrite !forallb_forall. intros H x Hx. apply H. now apply in_rev.
Qed.

(** [trim] gives back a text that neither starts nor ends with a blank,
    whatever blanks are put around it. *)
Lemma trim_padded (ws1 ws2 mid : jsstring) (a b : N) :
  forallb isWhiteSpace ws1 = true ->
  forallb isWhiteSpace ws2 = true ->
  isWhiteSpace a = false ->
  isWhiteSpace b = false ->
  trim (ws1 ++ (a :: mid ++ [b]) ++ ws2) = a :: mid ++ [b].
Proof.
  intros H1 H2 Ha Hb. unfold trim.
  rewrite (trimStart_blanks ws1) by assumption.
  cbn [app trimStart]. rewrite Ha.
  change (a :: (mid ++ [b]) ++ ws2) with ((a :: mid ++ [b]) ++ ws2).
  rewrite rev_app_distr.
  rewrite (trimStart_blanks (rev ws2)) by now apply forallb_rev.
  change (a :: mid ++ [b]) with ((a :: mid) ++ [b]).
  rewrite (rev_app_distr (a :: mid) [b]). cbn [rev app trimStart].
  rewrite Hb.
  change (b :: rev mid ++ [a]) with (rev [b] ++ rev (a :: mid)).
  rewrite <- rev_app_distr, rev_involutive. reflexivity.
Qed.

(** X16.  On [darwin] the binary is chosen by what [uname -m] prints: the
    M1 binary when it is [arm64] with any blanks or line ends around it,
    the Intel binary for every other output. *)
Theorem darwin_architecture :
  forall (w : World) (stdout : jsstring),
    platform (env w) = str "darwin" ->
    uname_m (env w) = inr stdout ->
    (forall ws1 ws2 : jsstring,
        forallb isWhiteSpace ws1 = true ->
        forallb isWhiteSpace ws2 = true ->
        stdout = ws1 ++ str "arm64" ++ ws2 ->
        fst (upstream w) = Fulfilled upstream_OSX_m1)
    /\ (trim stdout <> str "arm64" ->
        fst (upstream w) = Fulfilled upstream_OSX_intel).
Proof.
  intros w stdout P U. unfold upstream, emit, ask, bind, ret.
  cbn [fst snd env]. rewrite P, U. cbn [jsstring_eqb].
  change (jsstring_eqb (str "darwin") (str "darwin")) with true.
  cbn [fst snd]. split.
  - intros ws1 ws2 H1 H2 ->.
    change (str "arm64") with (97 :: str "rm6" ++ [52]).
    rewrite trim_padded by (assumption || reflexivity).
    reflexivity.
  - intros H. now rewrite (jsstring_eqb_neq _ _ H).
Qed.

Lemma darwin_architecture_witness :
  (forall ws1 ws2 : jsstring,
      forallb isWhiteSpace ws1 = true ->
      forallb isWhiteSpace ws2 = true ->
      str "arm64" ++ [LF] = ws1 ++ str "arm64" ++ ws2 ->
      fst (upstream (worldOn (macHost (str "arm64" ++ [LF]))))
      = Fulfilled upstream_OSX_m1)
  /\ (trim (str "arm64" ++ [LF]) <> str "arm64" ->
      fst (upstream (worldOn (macHost (str "arm64" ++ [LF]))))
      = Fulfilled upstream_OSX_intel).
Proof.
  apply (darwin_architecture (worldOn (macHost (str "arm64" ++ [LF]))));
    reflexivity.
Defined.
